(** * TaskFlow: the Pomodoro focus timer and the task board controller

    A shallow embedding of the component logic of [TaskFlow.jsx]
    ([PomodoroTimer], [TaskCard], [TaskForm], [App]).

    React state is modelled by explicit state passing: every [useState]
    cell is a record field, every handler is a function from state to
    state.  The browser's interval table (what [setInterval] and
    [clearInterval] act on) and the Firestore collection are part of the
    state, as finite maps.

    What the model assumes of its environment:
    - React applies every state updater and runs every effect once per
      update, as a production build does (the repeated invocations of
      [StrictMode] in development are not modelled);
    - in [dispatch] each handler runs to completion, together with its
      awaited store request and the change notification this request
      causes, before the next event is dispatched; [handle e s] is what
      React commits when the handler has run, before the effect of the
      timer, and [dispatch e s] the state once that effect has run; the
      stages of the handlers that await the store, and the states between
      a request and its reply, are in [Async];
    - the components stay mounted, so the cleanup that clears the interval
      on unmount never runs;
    - numbers are integers ([focusTime] counts minutes, [remaining]
      seconds), on which JavaScript's arithmetic is exact. *)

From stdpp Require Import gmap list strings sorting.
From Stdlib Require Import ZArith Lia DecimalN Ascii.
From Stdlib Require String.

Local Open Scope Z_scope.

(** ** Data model *)

(** A JavaScript string: a sequence of UTF-16 code units. *)
Definition jsstring := list N.

(** The code units of a literal of the source (its characters are
    ASCII). *)
Definition units (s : string) : jsstring :=
  N_of_ascii <$> String.list_ascii_of_string s.

(** The decimal digits [Number.prototype.toString] writes, most
    significant first. *)
Fixpoint digitUnits (u : Decimal.uint) : jsstring :=
  match u with
  | Decimal.Nil => []
  | Decimal.D0 r => 48%N :: digitUnits r
  | Decimal.D1 r => 49%N :: digitUnits r
  | Decimal.D2 r => 50%N :: digitUnits r
  | Decimal.D3 r => 51%N :: digitUnits r
  | Decimal.D4 r => 52%N :: digitUnits r
  | Decimal.D5 r => 53%N :: digitUnits r
  | Decimal.D6 r => 54%N :: digitUnits r
  | Decimal.D7 r => 55%N :: digitUnits r
  | Decimal.D8 r => 56%N :: digitUnits r
  | Decimal.D9 r => 57%N :: digitUnits r
  end.

(** [n.toString()] for an integer [n]: a minus sign when negative, then
    the digits. *)
Definition toString (z : Z) : jsstring :=
  match Z.to_int z with
  | Decimal.Pos u => digitUnits u
  | Decimal.Neg u => 45%N :: digitUnits u
  end.

(** [s.padStart(n, '0')] *)
Definition padStart (n : nat) (s : jsstring) : jsstring :=
  replicate (n - length s) 48%N ++ s.

Definition DocId := nat.

Inductive TaskStatus := todo | in_progress | complete.
Inductive EnergyLevel := High | Medium | Low.
Inductive TaskType := project | daily.

Global Instance TaskStatus_eq_dec : EqDecision TaskStatus.
Proof. solve_decision. Defined.
Global Instance TaskType_eq_dec : EqDecision TaskType.
Proof. solve_decision. Defined.

(** A document of the [tasks] collection, as [addDoc] writes it.  Older
    documents may lack [type]; [createdAt] is read as
    [createdAt?.seconds || 0]. *)
Record Doc := {
  d_title : jsstring;
  d_focusTime : Z;
  d_energyLevel : EnergyLevel;
  d_type : option TaskType;
  d_status : TaskStatus;
  d_createdAt : option Z;
  d_userId : jsstring
}.

(** A task as the components see it: [{ id: doc.id, type: 'project',
    ...doc.data() }]. *)
Record Task := {
  id : DocId;
  title : jsstring;
  focusTime : Z;
  energyLevel : EnergyLevel;
  type : TaskType;
  status : TaskStatus;
  createdAt : option Z;
  userId : jsstring
}.

Definition fromDoc (k : DocId) (d : Doc) : Task :=
  {| id := k;
     title := d_title d;
     focusTime := d_focusTime d;
     energyLevel := d_energyLevel d;
     type := default project (d_type d);
     status := d_status d;
     createdAt := d_createdAt d;
     userId := d_userId d |}.

(** ** PomodoroTimer *)

Module PomodoroTimer.

Inductive Status := idle | running | break.

Global Instance Status_eq_dec : EqDecision Status.
Proof. solve_decision. Defined.

Definition POMODORO_TIME : Z := 25 * 60.
Definition BREAK_TIME : Z := 5 * 60.

(** What the callback handed to [setInterval] has captured: the
    [newStatus] argument of the [startTimer] call that created it and
    the [currentTask] prop of the render [startTimer] belongs to.  (Its
    own [id] is the key it is stored under.) *)
Record Closure := {
  newStatus : Status;
  currentTask : option Task
}.

(** The three [useState] cells, the browser's table of active
    intervals with the counter [setInterval] draws identifiers from, and
    the arguments [onTimerComplete] has been called with so far. *)
Record State := {
  remaining : Z;
  status : Status;
  intervalId : option nat;
  intervals : gmap nat Closure;
  nextInterval : nat;
  completions : list (option Task)
}.

Definition setRemaining (r : Z) (s : State) : State :=
  {| remaining := r; status := status s; intervalId := intervalId s;
     intervals := intervals s; nextInterval := nextInterval s;
     completions := completions s |}.

Definition setStatus (st : Status) (s : State) : State :=
  {| remaining := remaining s; status := st; intervalId := intervalId s;
     intervals := intervals s; nextInterval := nextInterval s;
     completions := completions s |}.

Definition setIntervalId (i : option nat) (s : State) : State :=
  {| remaining := remaining s; status := status s; intervalId := i;
     intervals := intervals s; nextInterval := nextInterval s;
     completions := completions s |}.

(** [setInterval(callback, 1000)]: registers the callback under a fresh
    identifier, which is returned. *)
Definition setInterval (c : Closure) (s : State) : nat * State :=
  (nextInterval s,
   {| remaining := remaining s; status := status s;
      intervalId := intervalId s;
      intervals := <[nextInterval s := c]> (intervals s);
      nextInterval := S (nextInterval s);
      completions := completions s |}).

Definition clearInterval (i : nat) (s : State) : State :=
  {| remaining := remaining s; status := status s;
     intervalId := intervalId s;
     intervals := delete i (intervals s);
     nextInterval := nextInterval s;
     completions := completions s |}.

Definition onTimerComplete (t : option Task) (s : State) : State :=
  {| remaining := remaining s; status := status s;
     intervalId := intervalId s;
     intervals := intervals s; nextInterval := nextInterval s;
     completions := completions s ++ [t] |}.

(** JavaScript truthiness of [intervalId]: [null] and [0] are falsy. *)
Definition truthy (i : option nat) : bool :=
  match i with
  | Some (S _) => true
  | _ => false
  end.

(** The initial render: [useState(POMODORO_TIME)], [useState('idle')],
    [useState(null)]; browsers number their timers from 1. *)
Definition init : State :=
  {| remaining := POMODORO_TIME; status := idle; intervalId := None;
     intervals := ∅; nextInterval := 1%nat; completions := [] |}.

(** [startTimer(newStatus, taskFocusTime)], in a render whose
    [currentTask] prop is [ct]. *)
Definition startTimer (ct : option Task) (newSt : Status)
    (taskFocusTime : Z) (s : State) : State :=
  if truthy (intervalId s) then s
  else
    let startTime :=
      if decide (newSt = running) then taskFocusTime * 60 else BREAK_TIME in
    let s := setRemaining startTime s in
    let s := setStatus newSt s in
    let '(i, s) :=
      setInterval {| newStatus := newSt; currentTask := ct |} s in
    setIntervalId (Some i) s.

(** One firing of the interval [i]: the updater given to
    [setRemaining], with what it does on the way. *)
Definition tick (i : nat) (s : State) : State :=
  match intervals s !! i with
  | None => s
  | Some c =>
      if remaining s <=? 1 then
        let s := clearInterval i s in
        let s := setIntervalId None s in
        if decide (newStatus c = running) then
          let s := onTimerComplete (currentTask c) s in
          let s := setStatus break s in
          setRemaining BREAK_TIME s
        else
          let s := setStatus idle s in
          setRemaining POMODORO_TIME s
      else setRemaining (remaining s - 1) s
  end.

Definition stopTimer (s : State) : State :=
  let s :=
    match intervalId s with
    | Some (S n) => setIntervalId None (clearInterval (S n) s)
    | _ => s
    end in
  let s := setRemaining POMODORO_TIME s in
  setStatus idle s.

(** The effect [useEffect(..., [currentTask, status, stopTimer,
    POMODORO_TIME])] that couples the timer to the focused task. *)
Definition taskEffect (ct : option Task) (s : State) : State :=
  match ct with
  | Some t =>
      if decide (status s = idle) then setRemaining (focusTime t * 60) s
      else s
  | None =>
      if decide (status s = idle) then setRemaining POMODORO_TIME s
      else stopTimer s
  end.

Definition timeToDisplay (ct : option Task) (s : State) : Z :=
  match ct with
  | Some t => if decide (status s = idle) then focusTime t * 60
              else remaining s
  | None => remaining s
  end.

(** [formatTime]: [Math.floor(time / 60)] and [time % 60], each written
    with at least two digits. *)
Definition formatTime (time : Z) : jsstring :=
  let minutes := padStart 2 (toString (time / 60)) in
  let seconds := padStart 2 (toString (Z.rem time 60)) in
  minutes ++ units ":" ++ seconds.

(** [label] *)
Definition label (ct : option Task) (s : State) : jsstring :=
  if decide (status s = running) then
    match ct with
    | Some t => units "Focusing on: " ++ title t
    | None => units "Deep Work Session"
    end
  else if decide (status s = break) then units "Break Time!"
  else
    match ct with
    | Some t => units "Ready to focus on: " ++ title t
    | None => units "Select a Task to Focus"
    end.

(** The three buttons: which ones are rendered, and their [onClick]. *)
Definition showsStart (s : State) : bool :=
  bool_decide (status s ≠ running) && bool_decide (status s ≠ break).
Definition startDisabled (ct : option Task) : bool :=
  match ct with Some _ => false | None => true end.
Definition showsStop (s : State) : bool :=
  bool_decide (status s = running) || bool_decide (status s = break).
Definition showsTakeBreak (s : State) : bool :=
  bool_decide (status s = running).

Definition clickStart (ct : option Task) (s : State) : State :=
  if showsStart s && negb (startDisabled ct) then
    startTimer ct running
      (match ct with Some t => focusTime t | None => 25 end) s
  else s.

Definition clickStop (s : State) : State :=
  if showsStop s then stopTimer s else s.

Definition clickTakeBreak (ct : option Task) (s : State) : State :=
  if showsTakeBreak s then startTimer ct break (BREAK_TIME / 60) s else s.

(** [n] successive firings of the interval [i]. *)
Definition ticks (i : nat) (n : nat) (s : State) : State :=
  Nat.iter n (tick i) s.

(** The component state agrees with the browser: while [running], the
    interval table holds the one interval [intervalId] names, created by
    [startTimer('running', _)]; otherwise there is no interval and
    [intervalId] is [null]. *)
Definition consistent (s : State) : Prop :=
  (0 < nextInterval s)%nat ∧
  match status s with
  | running =>
      ∃ i c, intervalId s = Some (S i) ∧ intervals s = {[S i := c]}
             ∧ newStatus c = running
  | _ => intervalId s = None ∧ intervals s = ∅
  end.

(** The firings of the intervals [js], in this order. *)
Definition fires (js : list nat) (s : State) : State :=
  foldl (λ s j, tick j s) s js.

End PomodoroTimer.

(** ** Strings: [String.prototype.trim] *)

(** The code units [trim] strips: ECMAScript's WhiteSpace and
    LineTerminator productions. *)
Definition isWhiteSpace (c : N) : bool :=
  bool_decide (c ∈ [9; 10; 11; 12; 13; 32; 160; 5760; 8232; 8233; 8239;
                    8287; 12288; 65279]%N)
  || ((8192 <=? c)%N && (c <=? 8202)%N).

Fixpoint trimStart (s : jsstring) : jsstring :=
  match s with
  | [] => []
  | c :: r => if isWhiteSpace c then trimStart r else s
  end.

Definition trimEnd (s : jsstring) : jsstring := rev (trimStart (rev s)).

Definition trim (s : jsstring) : jsstring := trimEnd (trimStart s).

(** The empty string is the only falsy string. *)
Definition isEmpty (s : jsstring) : bool :=
  match s with [] => true | _ => false end.

(** ** useFirebaseContext: the application identifier *)

Module FirebaseContext.

(** [/[^a-zA-Z0-9_.-]/] does not match these code units. *)
Definition allowed (c : N) : bool :=
  ((97 <=? c) && (c <=? 122) || (65 <=? c) && (c <=? 90)
   || (48 <=? c) && (c <=? 57) || (c =? 95) || (c =? 46) || (c =? 45))%N.

(** [rawAppId.replace(/\//g, '_')] *)
Definition replaceSlashes (raw : jsstring) : jsstring :=
  (λ c, if (c =? 47)%N then 95%N else c) <$> raw.

(** [.replace(/[^a-zA-Z0-9_.-]/g, '-')] *)
Definition replaceOthers (s : jsstring) : jsstring :=
  (λ c, if allowed c then c else 45%N) <$> s.

(** [appId], from [__app_id] when it is defined. *)
Definition appId (app_id : option jsstring) : jsstring :=
  let rawAppId := default (units "default-taskflow-app") app_id in
  replaceOthers (replaceSlashes rawAppId).

End FirebaseContext.

(** ** The task store (Firestore), seen through the three requests the
    controller issues and the snapshot its listener receives *)

Module Firestore.

Inductive Call :=
| AddDoc (d : Doc)
| UpdateDoc (k : DocId) (st : TaskStatus)
| DeleteDoc (k : DocId).

(** The collection and the requests made on it so far. *)
Record State := {
  docs : gmap DocId Doc;
  calls : list Call
}.

Definition withStatus (st : TaskStatus) (d : Doc) : Doc :=
  {| d_title := d_title d; d_focusTime := d_focusTime d;
     d_energyLevel := d_energyLevel d; d_type := d_type d;
     d_status := st; d_createdAt := d_createdAt d;
     d_userId := d_userId d |}.

(** Every request carries [ok]: whether the backend accepts it (it
    rejects when offline, unauthorised, ...).  The result is [true] when
    the promise resolves and [false] when it rejects. *)
Definition addDoc (ok : bool) (d : Doc) (s : State) : bool * State :=
  let cs := calls s ++ [AddDoc d] in
  if ok then
    (true, {| docs := <[fresh (dom (docs s)) := d]> (docs s); calls := cs |})
  else (false, {| docs := docs s; calls := cs |}).

(** [updateDoc(ref, { status })] rejects when the document is missing. *)
Definition updateDoc (ok : bool) (k : DocId) (st : TaskStatus) (s : State)
    : bool * State :=
  let cs := calls s ++ [UpdateDoc k st] in
  match docs s !! k with
  | Some d =>
      if ok then
        (true, {| docs := <[k := withStatus st d]> (docs s); calls := cs |})
      else (false, {| docs := docs s; calls := cs |})
  | None => (false, {| docs := docs s; calls := cs |})
  end.

Definition deleteDoc (ok : bool) (k : DocId) (s : State) : bool * State :=
  let cs := calls s ++ [DeleteDoc k] in
  if ok then (true, {| docs := delete k (docs s); calls := cs |})
  else (false, {| docs := docs s; calls := cs |}).

(** [snapshot.docs.map(doc => ({ id: doc.id, type: 'project',
    ...doc.data() }))] *)
Definition snapshot (s : State) : list Task :=
  (λ kd, fromDoc kd.1 kd.2) <$> map_to_list (docs s).

End Firestore.

(** ** TaskCard *)

Module TaskCard.

(** [nextStatus.next]: the status the first button of the card asks
    for. *)
Definition nextStatus (st : TaskStatus) : option TaskStatus :=
  match st with
  | todo => Some in_progress
  | in_progress => Some complete
  | complete => Some todo
  end.

(** The Focus button is rendered under [status !== 'complete']. *)
Definition showsFocus (t : Task) : bool :=
  bool_decide (status t ≠ complete).

End TaskCard.

(** What [TaskForm] hands to [onAddTask]. *)
Record NewTask := {
  new_title : jsstring;
  new_focusTime : Z;
  new_energyLevel : EnergyLevel;
  new_type : TaskType
}.

(** ** App *)

Module App.

Inductive ErrorMsg :=
| FirestoreNotReady
| ErrorAdding
| ErrorUpdating
| ErrorDeleting.

(** The [useState] cells of [App]; what [useAuthAndFirestore] yields
    ([userId], and [ready]: whether [getTasksCollectionRef()] is not
    null, that is [db && userId]); the store; and what was written with
    [console.error]. *)
Record State := {
  tasks : list Task;
  isSubmitting : bool;
  currentFocusTask : option Task;
  taskTypeFilter : TaskType;
  userId : jsstring;
  ready : bool;
  store : Firestore.State;
  errors : list ErrorMsg
}.

Definition setTasks (l : list Task) (a : State) : State :=
  {| tasks := l; isSubmitting := isSubmitting a;
     currentFocusTask := currentFocusTask a;
     taskTypeFilter := taskTypeFilter a; userId := userId a;
     ready := ready a; store := store a; errors := errors a |}.

Definition setIsSubmitting (b : bool) (a : State) : State :=
  {| tasks := tasks a; isSubmitting := b;
     currentFocusTask := currentFocusTask a;
     taskTypeFilter := taskTypeFilter a; userId := userId a;
     ready := ready a; store := store a; errors := errors a |}.

Definition setCurrentFocusTask (t : option Task) (a : State) : State :=
  {| tasks := tasks a; isSubmitting := isSubmitting a;
     currentFocusTask := t;
     taskTypeFilter := taskTypeFilter a; userId := userId a;
     ready := ready a; store := store a; errors := errors a |}.

Definition setTaskTypeFilter (ty : TaskType) (a : State) : State :=
  {| tasks := tasks a; isSubmitting := isSubmitting a;
     currentFocusTask := currentFocusTask a;
     taskTypeFilter := ty; userId := userId a;
     ready := ready a; store := store a; errors := errors a |}.

Definition setStore (st : Firestore.State) (a : State) : State :=
  {| tasks := tasks a; isSubmitting := isSubmitting a;
     currentFocusTask := currentFocusTask a;
     taskTypeFilter := taskTypeFilter a; userId := userId a;
     ready := ready a; store := st; errors := errors a |}.

Definition consoleError (e : ErrorMsg) (a : State) : State :=
  {| tasks := tasks a; isSubmitting := isSubmitting a;
     currentFocusTask := currentFocusTask a;
     taskTypeFilter := taskTypeFilter a; userId := userId a;
     ready := ready a; store := store a; errors := errors a ++ [e] |}.

(** [a.createdAt?.seconds || 0] *)
Definition createdSeconds (t : Task) : Z := default 0 (createdAt t).

(** [fetchedTasks.sort((a, b) => a.createdAt - b.createdAt)]: a stable
    sort, oldest first. *)
Fixpoint insertByCreatedAt (t : Task) (l : list Task) : list Task :=
  match l with
  | [] => [t]
  | u :: r =>
      if createdSeconds t <=? createdSeconds u then t :: u :: r
      else u :: insertByCreatedAt t r
  end.

Definition sortByCreatedAt (l : list Task) : list Task :=
  foldr insertByCreatedAt [] l.

(** The [onSnapshot] listener, which exists once [isAuthReady] holds and
    the collection reference is not null. *)
Definition onSnapshot (a : State) : State :=
  if ready a then
    setTasks (sortByCreatedAt (Firestore.snapshot (store a))) a
  else a.

Definition handleAddTask (newTask : NewTask) (now : Z) (ok : bool)
    (a : State) : State :=
  let a := setIsSubmitting true a in
  if negb (ready a) then
    let a := consoleError FirestoreNotReady a in
    setIsSubmitting false a
  else
    let taskData :=
      {| d_title := new_title newTask;
         d_focusTime := new_focusTime newTask;
         d_energyLevel := new_energyLevel newTask;
         d_type := Some (new_type newTask);
         d_status := todo;
         d_createdAt := Some now;
         d_userId := userId a |} in
    let '(res, st) := Firestore.addDoc ok taskData (store a) in
    let a := setStore st a in
    let a := if res then onSnapshot a else consoleError ErrorAdding a in
    setIsSubmitting false a.

(** [currentFocusTask?.id === taskId] *)
Definition focusIs (cft : option Task) (taskId : DocId) : bool :=
  match cft with
  | Some t => bool_decide (id t = taskId)
  | None => false
  end.

(** [handleUpdateTaskStatus], as created by a render in which
    [currentFocusTask] was [cft]. *)
Definition handleUpdateTaskStatus (cft : option Task) (taskId : DocId)
    (newStatus : TaskStatus) (ok : bool) (a : State) : State :=
  if negb (ready a) then a
  else
    let '(res, st) := Firestore.updateDoc ok taskId newStatus (store a) in
    let a := setStore st a in
    if res then
      let a := onSnapshot a in
      if bool_decide (newStatus = complete) && focusIs cft taskId then
        setCurrentFocusTask None a
      else a
    else consoleError ErrorUpdating a.

Definition handleDeleteTask (cft : option Task) (taskId : DocId)
    (ok : bool) (a : State) : State :=
  if negb (ready a) then a
  else
    let '(res, st) := Firestore.deleteDoc ok taskId (store a) in
    let a := setStore st a in
    if res then
      let a := onSnapshot a in
      if focusIs cft taskId then setCurrentFocusTask None a else a
    else consoleError ErrorDeleting a.

Definition handleStartFocus (cft : option Task) (task : Task) (ok : bool)
    (a : State) : State :=
  let a := setCurrentFocusTask (Some task) a in
  if decide (status task = todo) then
    handleUpdateTaskStatus cft (id task) in_progress ok a
  else a.

(** [filteredTasks(status)] *)
Definition filteredTasks (st : TaskStatus) (a : State) : list Task :=
  filter (λ t, status t = st ∧ type t = taskTypeFilter a) (tasks a).

(** The cards on the board: the three columns of [statusColumns]. *)
Definition cards (a : State) : list Task :=
  filteredTasks todo a ++ filteredTasks in_progress a
    ++ filteredTasks complete a.


(** [s.split(sep)[0]]: what precedes the first [sep]. *)
Fixpoint beforeFirst (sep : N) (s : jsstring) : jsstring :=
  match s with
  | [] => []
  | c :: r => if (c =? sep)%N then [] else c :: beforeFirst sep r
  end.

(** [userName], from [auth?.currentUser?.email] and the [userId] state
    (both may be null): the part of the mail address before its first
    at-sign, or [User_] and the first four units of a long identifier, or
    [Guest]. *)
Definition userName (email : option jsstring) (uid : option jsstring)
    : jsstring :=
  match email with
  | Some (c :: e) => beforeFirst 64 (c :: e)
  | _ =>
      match uid with
      | Some u =>
          if bool_decide (8 < length u)%nat then units "User_" ++ take 4 u
          else units "Guest"
      | None => units "Guest"
      end
  end.

(** The count of Task Stats:
    [tasks.filter(t => t.type === taskTypeFilter).length] *)
Definition totalOfType (a : State) : nat :=
  length (filter (λ t, type t = taskTypeFilter a) (tasks a)).

Definition init (uid : jsstring) (rdy : bool) (ds : gmap DocId Doc)
    : State :=
  {| tasks := []; isSubmitting := false; currentFocusTask := None;
     taskTypeFilter := project; userId := uid; ready := rdy;
     store := {| Firestore.docs := ds; Firestore.calls := [] |};
     errors := [] |}.

End App.

(** ** TaskForm *)

Module TaskForm.

Record State := {
  title : jsstring;
  focusTime : Z;
  energyLevel : EnergyLevel;
  taskType : TaskType
}.

Definition init : State :=
  {| title := []; focusTime := 30; energyLevel := Medium;
     taskType := project |}.

(** The options of the Focus Time [select]. *)
Definition focusOptions : list Z := [15; 30; 45; 60; 90; 120].

Definition setTitle (s : jsstring) (f : State) : State :=
  {| title := s; focusTime := focusTime f; energyLevel := energyLevel f;
     taskType := taskType f |}.

Definition setFocusTime (n : Z) (f : State) : State :=
  {| title := title f; focusTime := n; energyLevel := energyLevel f;
     taskType := taskType f |}.

Definition setEnergyLevel (e : EnergyLevel) (f : State) : State :=
  {| title := title f; focusTime := focusTime f; energyLevel := e;
     taskType := taskType f |}.

Definition setTaskType (ty : TaskType) (f : State) : State :=
  {| title := title f; focusTime := focusTime f;
     energyLevel := energyLevel f; taskType := ty |}.

(** The [onChange] of the [select]: its value is one of its options
    (the [n]-th). *)
Definition selectFocusTime (n : nat) (f : State) : State :=
  match focusOptions !! n with
  | Some v => setFocusTime v f
  | None => f
  end.

(** [handleSubmit]; [onAddTask] is [App.handleAddTask].  [parseInt] is
    the identity on the values [focusTime] takes.  (The submit button is
    disabled under the condition the handler tests first.) *)
Definition handleSubmit (now : Z) (ok : bool) (fa : State * App.State)
    : State * App.State :=
  let '(f, a) := fa in
  if isEmpty (trim (title f)) then (f, a)
  else
    let a :=
      App.handleAddTask
        {| new_title := trim (title f);
           new_focusTime := focusTime f;
           new_energyLevel := energyLevel f;
           new_type := taskType f |} now ok a in
    let f := setTitle [] f in
    let f := setFocusTime 30 f in
    let f := setEnergyLevel Medium f in
    (f, a).

End TaskForm.

(** ** The page: [App] with its [TaskForm] and its [PomodoroTimer] *)

Record System := {
  app : App.State;
  form : TaskForm.State;
  timer : PomodoroTimer.State
}.

(** What can happen: the user acts on a control that is rendered, an
    interval fires, or the store pushes a snapshot.  A click on a card
    names the card by the [id] of its task; requests to the store carry
    their outcome. *)
Inductive Event :=
| ChangeTitle (s : jsstring)
| SelectFocusTime (n : nat)
| SelectEnergyLevel (e : EnergyLevel)
| SelectTaskType (ty : TaskType)
| Submit (now : Z) (ok : bool)
| ClickNextStatus (k : DocId) (ok : bool)
| ClickFocus (k : DocId) (ok : bool)
| ClickDelete (k : DocId) (ok : bool)
| ClickFilter (ty : TaskType)
| ClickStart
| ClickStop
| ClickTakeBreak
| Tick (i : nat)
| Snapshot.

Definition findCard (k : DocId) (a : App.State) : option Task :=
  find (λ t, bool_decide (id t = k)) (App.cards a).

Definition withApp (a : App.State) (s : System) : System :=
  {| app := a; form := form s; timer := timer s |}.

Definition withForm (f : TaskForm.State) (s : System) : System :=
  {| app := app s; form := f; timer := timer s |}.

Definition withTimer (t : PomodoroTimer.State) (s : System) : System :=
  {| app := app s; form := form s; timer := t |}.

(** The handler an event runs.  Handlers see the [currentFocusTask] of the
    last render. *)
Definition handle (e : Event) (s : System) : System :=
  let cft := App.currentFocusTask (app s) in
  match e with
  | ChangeTitle x => withForm (TaskForm.setTitle x (form s)) s
  | SelectFocusTime n => withForm (TaskForm.selectFocusTime n (form s)) s
  | SelectEnergyLevel x => withForm (TaskForm.setEnergyLevel x (form s)) s
  | SelectTaskType ty => withForm (TaskForm.setTaskType ty (form s)) s
  | Submit now ok =>
      let '(f, a) := TaskForm.handleSubmit now ok (form s, app s) in
      withForm f (withApp a s)
  | ClickNextStatus k ok =>
      match findCard k (app s) with
      | Some t =>
          match TaskCard.nextStatus (status t) with
          | Some n =>
              withApp (App.handleUpdateTaskStatus cft (id t) n ok (app s)) s
          | None => s
          end
      | None => s
      end
  | ClickFocus k ok =>
      match findCard k (app s) with
      | Some t =>
          if TaskCard.showsFocus t then
            withApp (App.handleStartFocus cft t ok (app s)) s
          else s
      | None => s
      end
  | ClickDelete k ok =>
      match findCard k (app s) with
      | Some t => withApp (App.handleDeleteTask cft (id t) ok (app s)) s
      | None => s
      end
  | ClickFilter ty => withApp (App.setTaskTypeFilter ty (app s)) s
  | ClickStart => withTimer (PomodoroTimer.clickStart cft (timer s)) s
  | ClickStop => withTimer (PomodoroTimer.clickStop (timer s)) s
  | ClickTakeBreak => withTimer (PomodoroTimer.clickTakeBreak cft (timer s)) s
  | Tick i => withTimer (PomodoroTimer.tick i (timer s)) s
  | Snapshot => withApp (App.onSnapshot (app s)) s
  end.

(** After the handler, React renders and runs the effect of the timer with
    the new [currentTask] prop.  (The effect depends on [currentTask],
    [status] and [intervalId] only and is idempotent, so running it after
    every event is the same as running it when a dependency changed.) *)
Definition render (s : System) : System :=
  withTimer
    (PomodoroTimer.taskEffect (App.currentFocusTask (app s)) (timer s)) s.

Definition dispatch (e : Event) (s : System) : System := render (handle e s).

Definition initial (uid : jsstring) (rdy : bool) (ds : gmap DocId Doc)
    : System :=
  render {| app := App.init uid rdy ds; form := TaskForm.init;
            timer := PomodoroTimer.init |}.

(** The records of the store follow the data model: [focusTime] is a
    positive number of minutes. *)
Definition validDocs (ds : gmap DocId Doc) : Prop :=
  map_Forall (λ _ d, 1 ≤ d_focusTime d) ds.

Inductive reachable : System → Prop :=
| reachable_initial uid rdy ds :
    validDocs ds → reachable (initial uid rdy ds)
| reachable_dispatch e s :
    reachable s → reachable (dispatch e s).

Definition run (es : list Event) (s : System) : System :=
  foldl (λ s e, dispatch e s) s es.

(** ** The handlers that await the store, stage by stage

    [dispatch] answers every request before the next event.  In the
    program [handleUpdateTaskStatus] and [handleDeleteTask] are suspended
    at their [await]: the request is made; the store makes the change and
    notifies the listener; the reply then resumes the handler, in the rest
    of its [try] block when the promise resolves and in its [catch] block
    when it rejects.  Here are these stages one by one, and the states
    between them. *)

Module Async.

(** What a suspended handler holds: the [currentFocusTask] of the render
    that created it and the arguments of its request; [written] tells
    whether the store has made the change yet. *)
Inductive Await :=
| AwaitUpdate (cft : option Task) (taskId : DocId) (newStatus : TaskStatus)
    (written : bool)
| AwaitDelete (cft : option Task) (taskId : DocId) (written : bool).

(** [handleUpdateTaskStatus] up to [await updateDoc(taskDocRef, { status:
    newStatus })], the collection reference being not null. *)
Definition updateRequested (taskId : DocId) (newStatus : TaskStatus)
    (a : App.State) : App.State :=
  App.setStore
    {| Firestore.docs := Firestore.docs (App.store a);
       Firestore.calls :=
         Firestore.calls (App.store a)
           ++ [Firestore.UpdateDoc taskId newStatus] |} a.

(** The store sets the status of the document [d] it holds under
    [taskId], and the listener receives the snapshot. *)
Definition updateWritten (taskId : DocId) (newStatus : TaskStatus) (d : Doc)
    (a : App.State) : App.State :=
  App.onSnapshot
    (App.setStore
       {| Firestore.docs :=
            <[taskId := Firestore.withStatus newStatus d]>
              (Firestore.docs (App.store a));
          Firestore.calls := Firestore.calls (App.store a) |} a).

(** The promise has resolved: [if (newStatus === 'complete' &&
    currentFocusTask?.id === taskId) setCurrentFocusTask(null)]. *)
Definition updateResolved (cft : option Task) (taskId : DocId)
    (newStatus : TaskStatus) (a : App.State) : App.State :=
  if bool_decide (newStatus = complete) && App.focusIs cft taskId then
    App.setCurrentFocusTask None a
  else a.

(** The promise has rejected: the [catch] block. *)
Definition updateRejected (a : App.State) : App.State :=
  App.consoleError App.ErrorUpdating a.

(** [handleDeleteTask] up to [await deleteDoc(taskDocRef)]. *)
Definition deleteRequested (taskId : DocId) (a : App.State) : App.State :=
  App.setStore
    {| Firestore.docs := Firestore.docs (App.store a);
       Firestore.calls :=
         Firestore.calls (App.store a) ++ [Firestore.DeleteDoc taskId] |} a.

Definition deleteWritten (taskId : DocId) (a : App.State) : App.State :=
  App.onSnapshot
    (App.setStore
       {| Firestore.docs := delete taskId (Firestore.docs (App.store a));
          Firestore.calls := Firestore.calls (App.store a) |} a).

(** [if (currentFocusTask?.id === taskId) setCurrentFocusTask(null)] *)
Definition deleteResolved (cft : option Task) (taskId : DocId)
    (a : App.State) : App.State :=
  if App.focusIs cft taskId then App.setCurrentFocusTask None a else a.

Definition deleteRejected (a : App.State) : App.State :=
  App.consoleError App.ErrorDeleting a.

(** The page and the handlers that are suspended. *)
Record State := {
  page : System;
  awaits : list Await
}.

(** The states the page goes through when replies may be late: besides
    the events of [dispatch], the first button and the Delete button of a
    card make their request and suspend; the store makes the change of a
    request that is awaited; a reply resumes the handler, after which
    React renders and runs the effect of the timer. *)
Inductive reachable : State → Prop :=
| start uid rdy ds :
    validDocs ds → reachable {| page := initial uid rdy ds; awaits := [] |}
| on_event e s ws :
    reachable {| page := s; awaits := ws |} →
    reachable {| page := dispatch e s; awaits := ws |}
| update_requested k t n s ws :
    reachable {| page := s; awaits := ws |} →
    findCard k (app s) = Some t →
    TaskCard.nextStatus (status t) = Some n →
    App.ready (app s) = true →
    reachable
      {| page := withApp (updateRequested (id t) n (app s)) s;
         awaits :=
           ws ++ [AwaitUpdate (App.currentFocusTask (app s)) (id t) n
                    false] |}
| update_written ws1 ws2 cft k n s d :
    reachable
      {| page := s; awaits := ws1 ++ AwaitUpdate cft k n false :: ws2 |} →
    Firestore.docs (App.store (app s)) !! k = Some d →
    reachable
      {| page := withApp (updateWritten k n d (app s)) s;
         awaits := ws1 ++ AwaitUpdate cft k n true :: ws2 |}
| update_resolved ws1 ws2 cft k n s :
    reachable
      {| page := s; awaits := ws1 ++ AwaitUpdate cft k n true :: ws2 |} →
    reachable
      {| page := render (withApp (updateResolved cft k n (app s)) s);
         awaits := ws1 ++ ws2 |}
| update_rejected ws1 ws2 cft k n s :
    reachable
      {| page := s; awaits := ws1 ++ AwaitUpdate cft k n false :: ws2 |} →
    reachable
      {| page := withApp (updateRejected (app s)) s;
         awaits := ws1 ++ ws2 |}
| delete_requested k t s ws :
    reachable {| page := s; awaits := ws |} →
    findCard k (app s) = Some t →
    App.ready (app s) = true →
    reachable
      {| page := withApp (deleteRequested (id t) (app s)) s;
         awaits :=
           ws ++ [AwaitDelete (App.currentFocusTask (app s)) (id t)
                    false] |}
| delete_written ws1 ws2 cft k s :
    reachable
      {| page := s; awaits := ws1 ++ AwaitDelete cft k false :: ws2 |} →
    reachable
      {| page := withApp (deleteWritten k (app s)) s;
         awaits := ws1 ++ AwaitDelete cft k true :: ws2 |}
| delete_resolved ws1 ws2 cft k s :
    reachable
      {| page := s; awaits := ws1 ++ AwaitDelete cft k true :: ws2 |} →
    reachable
      {| page := render (withApp (deleteResolved cft k (app s)) s);
         awaits := ws1 ++ ws2 |}
| delete_rejected ws1 ws2 cft k s :
    reachable
      {| page := s; awaits := ws1 ++ AwaitDelete cft k false :: ws2 |} →
    reachable
      {| page := withApp (deleteRejected (app s)) s;
         awaits := ws1 ++ ws2 |}.

End Async.

(** * Invariants *)

Module AppInvariant.
Import Firestore App.

(** The cached list shows documents of the store, each once. *)
Definition mirrored (a : App.State) : Prop :=
  ∀ t, t ∈ tasks a →
       ∃ d, docs (store a) !! id t = Some d ∧ t = fromDoc (id t) d.

Definition distinctIds (a : App.State) : Prop := NoDup (id <$> tasks a).

(** The document of the focused task is not [complete]. *)
Definition openFor (ds : gmap DocId Doc) (f : option Task) : Prop :=
  ∀ t d, f = Some t → ds !! id t = Some d → d_status d ≠ complete.

Definition focusOpen (a : App.State) : Prop :=
  openFor (docs (store a)) (currentFocusTask a).

Definition focusValid (a : App.State) : Prop :=
  ∀ t, currentFocusTask a = Some t → 1 ≤ focusTime t.

Record ok (a : App.State) : Prop := {
  ok_docs : validDocs (docs (store a));
  ok_mirror : mirrored a;
  ok_ids : distinctIds a;
  ok_open : focusOpen a;
  ok_focus : focusValid a
}.

(** Without a collection reference nothing is fetched. *)
Definition unreadyEmpty (a : App.State) : Prop :=
  ready a = false → tasks a = [].

End AppInvariant.

(** Every call of [onTimerComplete], made or still to come, names a
    task: [handlePomodoroComplete] reads [task.title]. *)
Definition namesTask (t : PomodoroTimer.State) : Prop :=
  Forall is_Some (PomodoroTimer.completions t)
  ∧ map_Forall (λ _ c, is_Some (PomodoroTimer.currentTask c))
      (PomodoroTimer.intervals t).

(** The order of the cached list: created no later. *)
Definition older (t u : Task) : Prop :=
  App.createdSeconds t ≤ App.createdSeconds u.

(** What an [addDoc] request of this page carries: a [todo] task with one
    of the focus times on offer, a title that is trimmed and not empty,
    the user's identifier, a type and a creation time. *)
Definition wellFormedAdd (uid : jsstring) (c : Firestore.Call) : Prop :=
  match c with
  | Firestore.AddDoc d =>
      d_status d = todo
      ∧ d_focusTime d ∈ TaskForm.focusOptions
      ∧ d_title d ≠ []
      ∧ trim (d_title d) = d_title d
      ∧ d_userId d = uid
      ∧ is_Some (d_type d)
      ∧ is_Some (d_createdAt d)
  | _ => True
  end.

(** ** Reading a display back

    The decimal reading of what [formatTime] writes; it serves to state
    that the display determines the time. *)
Module Display.

Definition digitOf (c : N) : option (Decimal.uint → Decimal.uint) :=
  match c with
  | 48%N => Some Decimal.D0
  | 49%N => Some Decimal.D1
  | 50%N => Some Decimal.D2
  | 51%N => Some Decimal.D3
  | 52%N => Some Decimal.D4
  | 53%N => Some Decimal.D5
  | 54%N => Some Decimal.D6
  | 55%N => Some Decimal.D7
  | 56%N => Some Decimal.D8
  | 57%N => Some Decimal.D9
  | _ => None
  end.

Fixpoint readUint (s : jsstring) : option Decimal.uint :=
  match s with
  | [] => Some Decimal.Nil
  | c :: r =>
      match digitOf c, readUint r with
      | Some d, Some u => Some (d u)
      | _, _ => None
      end
  end.

(** The number a string of digits denotes. *)
Definition readNat (s : jsstring) : option N := N.of_uint <$> readUint s.

(** The seconds a display [mm:ss] denotes: the last two units are the
    seconds, a colon precedes them, the rest are the minutes. *)
Definition readTime (s : jsstring) : option Z :=
  match rev s with
  | b :: a :: c :: m =>
      if (c =? 58)%N then
        match readNat (rev m), readNat [a; b] with
        | Some q, Some r => Some (Z.of_N (60 * q + r))
        | _, _ => None
        end
      else None
  | _ => None
  end.

Definition isDigit (c : N) : bool := ((48 <=? c) && (c <=? 57))%N.

(** [mm:ss] with two digits each, denoting [t]. *)
Definition fiveUnits (t : Z) (s : jsstring) : bool :=
  match s with
  | [m1; m2; c; s1; s2] =>
      isDigit m1 && isDigit m2 && (c =? 58)%N && isDigit s1 && (s1 <=? 53)%N
      && isDigit s2
      && (t =? 600 * (Z.of_N m1 - 48) + 60 * (Z.of_N m2 - 48)
               + 10 * (Z.of_N s1 - 48) + (Z.of_N s2 - 48))
  | _ => false
  end.

(** Exactly two units. *)
Definition twoUnits (s : jsstring) : bool :=
  match s with
  | [_; _] => true
  | _ => false
  end.

End Display.

(** What every reachable state of the page satisfies. *)
Record sound (s : System) : Prop := {
  sound_timer : PomodoroTimer.consistent (timer s);
  sound_app : AppInvariant.ok (app s);
  sound_form : 1 ≤ TaskForm.focusTime (form s);
  sound_remaining : 1 ≤ PomodoroTimer.remaining (timer s)
}.

(** * A session: one task, created, focused and worked on

    The scenario of the specification: task "Write report" (45 minutes,
    Medium, project) is created through the form, its card's Focus button
    is pressed, the countdown is started and left to run. *)

Module Session.

Definition user : jsstring := [117; 49]%N.

(** "Write report" *)
Definition writeReport : jsstring :=
  [87; 114; 105; 116; 101; 32; 114; 101; 112; 111; 114; 116]%N.

Definition loaded : System := initial user true ∅.

Definition created : System :=
  run [ChangeTitle writeReport; SelectFocusTime 2; Submit 0 true] loaded.

(** The store gave the document the identifier 0; focusing the task
    moves it to [in_progress]. *)
Definition focused : System := dispatch (ClickFocus 0%nat true) created.

Definition started : System := dispatch ClickStart focused.

(** Five seconds into the countdown. *)
Definition counting : System := run (replicate 5 (Tick 1%nat)) started.

(** 45 minutes later. *)
Definition expired : System := run (replicate 2700 (Tick 1%nat)) started.

(** The task as its card showed it when Focus was pressed. *)
Definition report : Task :=
  {| id := 0%nat; title := writeReport; focusTime := 45;
     energyLevel := Medium; type := project; status := todo;
     createdAt := Some 0; userId := user |}.

(** A second task, "Read mail" (15 minutes), is created before the
    first is focused; nothing is started yet. *)
Definition readMail : jsstring :=
  [82; 101; 97; 100; 32; 109; 97; 105; 108]%N.

Definition twoTasks : System :=
  run [ChangeTitle readMail; SelectFocusTime 0; Submit 60 true;
       ClickFocus 0%nat true] created.

Definition mail : Task :=
  {| id := 1%nat; title := readMail; focusTime := 15;
     energyLevel := Medium; type := project; status := todo;
     createdAt := Some 60; userId := user |}.

(** Both tasks exist, "Write report" is focused; the first button of the
    card of "Read mail" is pressed twice: that task is [complete]. *)
Definition mailDone : System :=
  run [ClickNextStatus 1%nat true; ClickNextStatus 1%nat true] twoTasks.



End Session.

(** * Properties of the timer *)

Module TimerFacts.
Import PomodoroTimer.

Lemma consistent_init : consistent init.
Proof. split; [simpl; lia | done]. Qed.

Lemma consistent_idle s :
  consistent s → status s = idle → intervalId s = None ∧ intervals s = ∅.
Proof. intros [_ H] E. by rewrite E in H. Qed.

Lemma consistent_break s :
  consistent s → status s = break → intervalId s = None ∧ intervals s = ∅.
Proof. intros [_ H] E. by rewrite E in H. Qed.

Lemma consistent_running s :
  consistent s → status s = running →
  ∃ i c, intervalId s = Some (S i) ∧ intervals s = {[S i := c]}
         ∧ newStatus c = running.
Proof. intros [_ H] E. by rewrite E in H. Qed.

Lemma startTimer_idle ct st d s :
  intervalId s = None →
  startTimer ct st d s =
  {| remaining := if decide (st = running) then d * 60 else BREAK_TIME;
     status := st;
     intervalId := Some (nextInterval s);
     intervals :=
       <[nextInterval s := {| newStatus := st; currentTask := ct |}]>
         (intervals s);
     nextInterval := S (nextInterval s);
     completions := completions s |}.
Proof. intros E. unfold startTimer. by rewrite E. Qed.

Lemma startTimer_active ct st d s :
  truthy (intervalId s) = true → startTimer ct st d s = s.
Proof. intros E. unfold startTimer. by rewrite E. Qed.

Lemma tick_none i s : intervals s !! i = None → tick i s = s.
Proof. intros E. unfold tick. by rewrite E. Qed.

Lemma tick_decrement i c s :
  intervals s !! i = Some c → 1 < remaining s →
  tick i s = setRemaining (remaining s - 1) s.
Proof.
  intros E Hr. unfold tick. rewrite E.
  destruct (Z.leb_spec (remaining s) 1); [lia | done].
Qed.

Lemma tick_expire_running i c s :
  intervals s !! i = Some c → newStatus c = running → remaining s ≤ 1 →
  tick i s =
  {| remaining := BREAK_TIME; status := break; intervalId := None;
     intervals := delete i (intervals s);
     nextInterval := nextInterval s;
     completions := completions s ++ [currentTask c] |}.
Proof.
  intros E Hc Hr. unfold tick. rewrite E.
  destruct (Z.leb_spec (remaining s) 1); [| lia].
  by rewrite decide_True.
Qed.

Lemma tick_expire_other i c s :
  intervals s !! i = Some c → newStatus c ≠ running → remaining s ≤ 1 →
  tick i s =
  {| remaining := POMODORO_TIME; status := idle; intervalId := None;
     intervals := delete i (intervals s);
     nextInterval := nextInterval s;
     completions := completions s |}.
Proof.
  intros E Hc Hr. unfold tick. rewrite E.
  destruct (Z.leb_spec (remaining s) 1); [| lia].
  by rewrite decide_False.
Qed.

Lemma setRemaining_same s : setRemaining (remaining s) s = s.
Proof. by destruct s. Qed.

(** While more than [n] seconds remain, [n] firings of an active
    interval only count down. *)
Lemma ticks_decrement i c (n : nat) s :
  intervals s !! i = Some c → Z.of_nat n < remaining s →
  ticks i n s = setRemaining (remaining s - Z.of_nat n) s.
Proof.
  induction n as [|n IH]; intros E Hr.
  - simpl. rewrite Z.sub_0_r. by rewrite setRemaining_same.
  - unfold ticks in *. simpl. rewrite IH by (done || lia).
    erewrite tick_decrement; [| exact E | simpl; lia].
    unfold setRemaining. simpl. f_equal. lia.
Qed.

Lemma fires_no_interval js s : intervals s = ∅ → fires js s = s.
Proof.
  intros E. induction js as [|j js IH]; [done |].
  unfold fires in *. simpl. rewrite tick_none; [done |].
  by rewrite E, lookup_empty.
Qed.

Lemma ticks_no_interval i n s : intervals s = ∅ → ticks i n s = s.
Proof.
  intros E. induction n as [|n IH]; [done |].
  unfold ticks in *. simpl. rewrite IH. apply tick_none.
  by rewrite E, lookup_empty.
Qed.

Lemma ticks_add i (n m : nat) s :
  ticks i (n + m) s = ticks i m (ticks i n s).
Proof.
  unfold ticks. rewrite Nat.add_comm. by rewrite Nat.iter_add.
Qed.

(** ** Preservation of [consistent] by everything the page can do to the
    timer *)

Lemma consistent_stopTimer s : consistent s → consistent (stopTimer s).
Proof.
  intros [Hn H]. split; [by destruct s, intervalId0 as [[|?]|] |].
  unfold stopTimer. destruct (status s) eqn:E.
  - destruct H as [Hi Hm]. rewrite Hi. by simpl.
  - destruct H as (i & c & Hi & Hm & _). rewrite Hi. simpl.
    split; [done |]. rewrite Hm. apply delete_singleton_eq.
  - destruct H as [Hi Hm]. rewrite Hi. by simpl.
Qed.

Lemma consistent_clickStop s : consistent s → consistent (clickStop s).
Proof.
  intros H. unfold clickStop. destruct (showsStop s); [| done].
  by apply consistent_stopTimer.
Qed.

Lemma consistent_clickStart ct s :
  consistent s → consistent (clickStart ct s).
Proof.
  intros H. unfold clickStart.
  destruct (showsStart s && negb (startDisabled ct)) eqn:E; [| done].
  apply andb_prop in E as [E _]. unfold showsStart in E.
  apply andb_prop in E as [E1 E2].
  apply bool_decide_eq_true in E1, E2.
  destruct (status s) eqn:Es; [| done | done].
  destruct (consistent_idle s H Es) as [Hi Hm].
  rewrite startTimer_idle by done. destruct H as [Hn _].
  split; [simpl; lia |]. simpl.
  destruct (nextInterval s) as [|n] eqn:En; [lia |].
  exists n, {| newStatus := running; currentTask := ct |}.
  split; [done |]. split; [| done].
  by rewrite Hm, insert_empty.
Qed.

Lemma clickTakeBreak_noop ct s :
  consistent s → clickTakeBreak ct s = s.
Proof.
  intros H. unfold clickTakeBreak, showsTakeBreak.
  case_bool_decide as E; [| done].
  destruct (consistent_running s H E) as (i & c & Hi & _).
  apply startTimer_active. by rewrite Hi.
Qed.

Lemma consistent_clickTakeBreak ct s :
  consistent s → consistent (clickTakeBreak ct s).
Proof. intros H. by rewrite clickTakeBreak_noop. Qed.

Lemma consistent_tick i s : consistent s → consistent (tick i s).
Proof.
  intros H. destruct (intervals s !! i) as [c|] eqn:E;
    [| by rewrite tick_none].
  destruct (status s) eqn:Es.
  - destruct (consistent_idle s H Es) as [_ Hm].
    by rewrite Hm, lookup_empty in E.
  - destruct (consistent_running s H Es) as (j & c' & Hj & Hm & Hc).
    rewrite Hm in E. apply lookup_singleton_Some in E as [<- <-].
    destruct H as [Hn _].
    destruct (Z.le_gt_cases (remaining s) 1) as [Hr|Hr].
    + rewrite (tick_expire_running _ c') by (by rewrite ?Hm, ?lookup_singleton_eq).
      split; [done |]. simpl. split; [done |].
      rewrite Hm. apply delete_singleton_eq.
    + rewrite (tick_decrement _ c') by (by rewrite ?Hm, ?lookup_singleton_eq || lia).
      split; [done |]. simpl. rewrite Es. by exists j, c'.
  - destruct (consistent_break s H Es) as [_ Hm].
    by rewrite Hm, lookup_empty in E.
Qed.

Lemma consistent_setRemaining r s :
  consistent s → consistent (setRemaining r s).
Proof. done. Qed.

Lemma consistent_taskEffect ct s :
  consistent s → consistent (taskEffect ct s).
Proof.
  intros H. unfold taskEffect.
  destruct ct; case_decide; try done.
  by apply consistent_stopTimer.
Qed.

(** ** A focus countdown, from its start to its expiry *)

Lemma startTimer_running_ticks ct d s (k : nat) :
  consistent s → status s = idle → Z.of_nat k < d * 60 →
  ticks (nextInterval s) k (startTimer ct running d s) =
  {| remaining := d * 60 - Z.of_nat k; status := running;
     intervalId := Some (nextInterval s);
     intervals :=
       {[nextInterval s := {| newStatus := running; currentTask := ct |}]};
     nextInterval := S (nextInterval s);
     completions := completions s |}.
Proof.
  intros H Es Hk. destruct (consistent_idle s H Es) as [Hi Hm].
  rewrite startTimer_idle by done. rewrite Hm, insert_empty.
  erewrite ticks_decrement;
    [done | simpl; apply lookup_singleton_eq | simpl; lia].
Qed.

Lemma focus_expiry ct d s :
  consistent s → status s = idle → 1 ≤ d →
  ticks (nextInterval s) (Z.to_nat (d * 60)) (startTimer ct running d s) =
  {| remaining := BREAK_TIME; status := break; intervalId := None;
     intervals := ∅; nextInterval := S (nextInterval s);
     completions := completions s ++ [ct] |}.
Proof.
  intros H Es Hd.
  replace (Z.to_nat (d * 60)) with (Z.to_nat (d * 60 - 1) + 1)%nat by lia.
  rewrite ticks_add, startTimer_running_ticks by (done || lia).
  unfold ticks. simpl.
  erewrite tick_expire_running;
    [| simpl; apply lookup_singleton_eq | done | simpl; lia].
  simpl. by rewrite delete_singleton_eq.
Qed.

Lemma taskEffect_busy t s : status s ≠ idle → taskEffect (Some t) s = s.
Proof. intros H. unfold taskEffect. by rewrite decide_False. Qed.

Lemma taskEffect_idempotent ct s :
  taskEffect ct (taskEffect ct s) = taskEffect ct s.
Proof.
  unfold taskEffect. destruct ct as [t|].
  - destruct (decide (status s = idle)) as [E|E]; simpl.
    + by rewrite decide_True.
    + by rewrite decide_False.
  - destruct (decide (status s = idle)) as [E|E]; simpl.
    + by rewrite decide_True.
    + done.
Qed.

Lemma ticks_succ_inner i n s : ticks i (S n) s = ticks i n (tick i s).
Proof. unfold ticks. by rewrite Nat.iter_succ_r. Qed.

(** From its start to its expiry, and in the break that follows, a
    focus countdown is never [idle]. *)
Lemma countdown_busy ct d s (m : nat) :
  consistent s → status s = idle → 1 ≤ d → (m ≤ Z.to_nat (d * 60))%nat →
  status (ticks (nextInterval s) m (startTimer ct running d s)) ≠ idle.
Proof.
  intros H Es Hd Hm.
  destruct (decide (m = Z.to_nat (d * 60))) as [->|Hne].
  - by rewrite focus_expiry.
  - by rewrite startTimer_running_ticks by (done || lia).
Qed.

End TimerFacts.

(** * Properties of the controller *)

Module AppFacts.
Import Firestore App AppInvariant.

(** ** The snapshot and its sorting *)

Lemma insertByCreatedAt_perm t l : insertByCreatedAt t l ≡ₚ t :: l.
Proof.
  induction l as [|u r IH]; simpl; [done |].
  destruct (createdSeconds t <=? createdSeconds u); [done |].
  rewrite IH. apply perm_swap.
Qed.

Lemma sortByCreatedAt_perm l : sortByCreatedAt l ≡ₚ l.
Proof.
  induction l as [|t l IH]; simpl; [done |].
  by rewrite insertByCreatedAt_perm, IH.
Qed.

Lemma snapshot_ids st : id <$> snapshot st = (map_to_list (docs st)).*1.
Proof.
  unfold snapshot. rewrite <- list_fmap_compose.
  by apply list_fmap_ext; intros ? [??].
Qed.

Lemma elem_of_snapshot st t :
  t ∈ snapshot st ↔ ∃ d, docs st !! id t = Some d ∧ t = fromDoc (id t) d.
Proof.
  unfold snapshot. rewrite list_elem_of_fmap. split.
  - intros ([k d] & -> & H). apply elem_of_map_to_list in H.
    simpl. by exists d.
  - intros (d & H & E). exists (id t, d). split; [done |].
    by apply elem_of_map_to_list.
Qed.

Lemma ok_init uid rdy ds : validDocs ds → ok (init uid rdy ds).
Proof.
  intros H. split; try done.
  - intros t Ht. by apply elem_of_nil in Ht.
  - apply NoDup_nil_2.
Qed.

(** [ok] looks at the cached list, the focus and the documents only. *)
Lemma ok_ext a a' :
  tasks a' = tasks a → currentFocusTask a' = currentFocusTask a →
  docs (store a') = docs (store a) → ok a → ok a'.
Proof.
  intros Ht Hf Hd [H1 H2 H3 H4 H5].
  split; unfold mirrored, distinctIds, focusOpen, focusValid in *;
    by rewrite ?Ht, ?Hf, ?Hd.
Qed.

(** A snapshot re-establishes the mirror, whatever the cache held. *)
Lemma mirrored_sorted a :
  tasks a = sortByCreatedAt (snapshot (store a)) → mirrored a.
Proof.
  intros E t Ht. rewrite E, sortByCreatedAt_perm in Ht.
  by apply elem_of_snapshot.
Qed.

Lemma distinctIds_sorted a :
  tasks a = sortByCreatedAt (snapshot (store a)) → distinctIds a.
Proof.
  intros E. unfold distinctIds. rewrite E, sortByCreatedAt_perm.
  rewrite snapshot_ids. apply NoDup_fst_map_to_list.
Qed.

Lemma ok_onSnapshot a : ok a → ok (onSnapshot a).
Proof.
  intros H. unfold onSnapshot. destruct (ready a); [| done].
  split; [apply H | by apply mirrored_sorted | by apply distinctIds_sorted
         | apply H | apply H].
Qed.

Lemma openFor_None ds : openFor ds None.
Proof. by intros t d. Qed.

Lemma openFor_insert ds f k d :
  openFor ds f → d_status d ≠ complete → openFor (<[k:=d]> ds) f.
Proof.
  intros H Hd t d' Ht Hl. destruct (decide (k = id t)) as [E|E].
  - rewrite E, lookup_insert_eq in Hl. by injection Hl as <-.
  - rewrite lookup_insert_ne in Hl by done. by eapply H.
Qed.

Lemma openFor_insert_other ds t k d :
  openFor ds (Some t) → id t ≠ k → openFor (<[k:=d]> ds) (Some t).
Proof.
  intros H Hk t' d' [= <-] Hl.
  rewrite lookup_insert_ne in Hl by done. by eapply H.
Qed.

Lemma openFor_delete ds f k : openFor ds f → openFor (delete k ds) f.
Proof.
  intros H t d Ht Hl. apply lookup_delete_Some in Hl as [_ Hl].
  by eapply H.
Qed.

Lemma ok_handleAddTask nt now b a :
  ok a → 1 ≤ new_focusTime nt → ok (handleAddTask nt now b a).
Proof.
  intros H Hn. unfold handleAddTask. simpl.
  destruct (ready a) eqn:R; simpl; [| by eapply ok_ext, H].
  destruct b; simpl; [| by eapply ok_ext, H].
  unfold onSnapshot. simpl. rewrite R.
  split; [| by apply mirrored_sorted | by apply distinctIds_sorted
         | | apply H]; simpl.
  - apply map_Forall_insert_2; [done | apply H].
  - apply openFor_insert; [apply H | done].
Qed.

Lemma ok_handleUpdateTaskStatus cft k n b a :
  ok a → (n = complete → cft = currentFocusTask a) →
  ok (handleUpdateTaskStatus cft k n b a).
Proof.
  intros H Hc. unfold handleUpdateTaskStatus.
  destruct (ready a) eqn:R; simpl; [| done].
  unfold updateDoc.
  destruct (docs (store a) !! k) as [d|] eqn:Ed; simpl;
    [| by eapply ok_ext, H].
  destruct b; simpl; [| by eapply ok_ext, H].
  unfold onSnapshot. simpl. rewrite R.
  assert (Hv : validDocs (<[k:=withStatus n d]> (docs (store a)))).
  { apply map_Forall_insert_2; [| apply H]. simpl.
    by eapply (ok_docs a H). }
  destruct (bool_decide (n = complete) && focusIs cft k) eqn:Ec.
  - split; [done | by apply mirrored_sorted | by apply distinctIds_sorted
           | apply openFor_None | done].
  - split; [done | by apply mirrored_sorted | by apply distinctIds_sorted
           | | apply H].
    unfold focusOpen. simpl.
    destruct (decide (n = complete)) as [En|En].
    + rewrite bool_decide_eq_true_2, (Hc En) in Ec by done. simpl in Ec.
      destruct (currentFocusTask a) as [t|] eqn:Ef;
        [| apply openFor_None].
      apply openFor_insert_other.
      * rewrite <- Ef. apply H.
      * simpl in Ec. by apply bool_decide_eq_false in Ec.
    + apply openFor_insert; [apply H | done].
Qed.

Lemma ok_handleDeleteTask cft k b a :
  ok a → ok (handleDeleteTask cft k b a).
Proof.
  intros H. unfold handleDeleteTask.
  destruct (ready a) eqn:R; simpl; [| done].
  destruct b; simpl; [| by eapply ok_ext, H].
  unfold onSnapshot. simpl. rewrite R.
  assert (Hv : validDocs (delete k (docs (store a))))
    by apply map_Forall_delete, H.
  destruct (focusIs cft k).
  - split; [done | by apply mirrored_sorted | by apply distinctIds_sorted
           | apply openFor_None | done].
  - split; [done | by apply mirrored_sorted | by apply distinctIds_sorted
           | | apply H].
    apply openFor_delete, H.
Qed.

(** Focusing a card whose task is not [complete]. *)
Lemma ok_handleStartFocus cft t b a :
  ok a → t ∈ tasks a → status t ≠ complete →
  ok (handleStartFocus cft t b a).
Proof.
  intros H Ht Hs. unfold handleStartFocus.
  destruct (ok_mirror a H t Ht) as (d & Hd & Et).
  assert (H1 : ok (setCurrentFocusTask (Some t) a)).
  { split; [apply H | apply H | apply H | |].
    - intros t' d' [= <-] Hl. simpl in Hl. rewrite Hd in Hl.
      injection Hl as <-. by rewrite Et in Hs.
    - intros t' [= <-]. rewrite Et. simpl. by eapply (ok_docs a H). }
  case_decide; [| done].
  by apply ok_handleUpdateTaskStatus.
Qed.

Lemma elem_of_cards a t : t ∈ cards a → t ∈ tasks a.
Proof.
  unfold cards, filteredTasks.
  rewrite !elem_of_app, !list_elem_of_filter. tauto.
Qed.

(** ** The focus reference under the handlers *)

Lemma focus_handleUpdateTaskStatus_other cft k n b a :
  n ≠ complete →
  currentFocusTask (handleUpdateTaskStatus cft k n b a)
  = currentFocusTask a.
Proof.
  intros Hn. unfold handleUpdateTaskStatus.
  destruct (ready a) eqn:R; simpl; [| done].
  unfold updateDoc. destruct (docs (store a) !! k); simpl; [| done].
  destruct b; simpl; [| done].
  rewrite bool_decide_eq_false_2 by done. simpl.
  unfold onSnapshot. simpl. by rewrite R.
Qed.

Lemma focus_handleStartFocus cft t b a :
  currentFocusTask (handleStartFocus cft t b a) = Some t.
Proof.
  unfold handleStartFocus. case_decide; [| done].
  by rewrite focus_handleUpdateTaskStatus_other.
Qed.

(** An accepted request to mark the focused task [complete] clears the
    focus, and so does an accepted request to delete it. *)
Lemma focus_handleUpdateTaskStatus_complete t a :
  ready a = true → is_Some (docs (store a) !! id t) →
  currentFocusTask
    (handleUpdateTaskStatus (Some t) (id t) complete true a) = None.
Proof.
  intros R [d Hd]. unfold handleUpdateTaskStatus, updateDoc.
  rewrite R, Hd. simpl. by rewrite bool_decide_eq_true_2.
Qed.

Lemma focus_handleDeleteTask t a :
  ready a = true →
  currentFocusTask (handleDeleteTask (Some t) (id t) true a) = None.
Proof.
  intros R. unfold handleDeleteTask. rewrite R. simpl.
  by rewrite bool_decide_eq_true_2.
Qed.

(** A rejected request leaves the documents and the focus as they
    were. *)
Lemma handleUpdateTaskStatus_rejected cft k n a :
  let a' := handleUpdateTaskStatus cft k n false a in
  docs (store a') = docs (store a)
  ∧ currentFocusTask a' = currentFocusTask a ∧ tasks a' = tasks a.
Proof.
  unfold handleUpdateTaskStatus, updateDoc.
  destruct (ready a); simpl; [| done].
  by destruct (docs (store a) !! k).
Qed.

Lemma handleDeleteTask_rejected cft k a :
  let a' := handleDeleteTask cft k false a in
  docs (store a') = docs (store a)
  ∧ currentFocusTask a' = currentFocusTask a ∧ tasks a' = tasks a.
Proof. unfold handleDeleteTask. by destruct (ready a). Qed.

Lemma NoDup_fmap_eq {A B} (f : A → B) (l : list A) x y :
  NoDup (f <$> l) → x ∈ l → y ∈ l → f x = f y → x = y.
Proof.
  induction l as [|z l IH]; intros Hn Hx Hy E;
    [by apply elem_of_nil in Hx |].
  rewrite fmap_cons in Hn. apply NoDup_cons in Hn as [Hz Hn].
  apply elem_of_cons in Hx as [->|Hx], Hy as [->|Hy]; try done.
  - exfalso. apply Hz. rewrite E. by apply list_elem_of_fmap_2.
  - exfalso. apply Hz. rewrite <- E. by apply list_elem_of_fmap_2.
  - by apply IH.
Qed.

Lemma unready_onSnapshot a : unreadyEmpty a → unreadyEmpty (onSnapshot a).
Proof.
  intros H. unfold onSnapshot. destruct (ready a) eqn:R; [| done].
  intros R'. simpl in R'. congruence.
Qed.

Lemma unready_handleAddTask nt now b a :
  unreadyEmpty a → unreadyEmpty (handleAddTask nt now b a).
Proof.
  intros H. unfold handleAddTask. simpl.
  destruct (ready a) eqn:R; simpl; [| by intros _; apply H].
  destruct b; simpl; intros R'; simpl in R'; [| congruence].
  unfold onSnapshot in R'. simpl in R'. rewrite R in R'. simpl in R'.
  congruence.
Qed.

Lemma unready_handleUpdateTaskStatus cft k n b a :
  unreadyEmpty a → unreadyEmpty (handleUpdateTaskStatus cft k n b a).
Proof.
  intros H. unfold handleUpdateTaskStatus.
  destruct (ready a) eqn:R; simpl; [| done].
  intros R'. exfalso. revert R'. unfold updateDoc, onSnapshot.
  destruct (docs (store a) !! k); simpl; [| congruence].
  destruct b; simpl; [| congruence]. rewrite R.
  destruct (bool_decide (n = complete) && focusIs cft k); simpl;
    congruence.
Qed.

Lemma unready_handleDeleteTask cft k b a :
  unreadyEmpty a → unreadyEmpty (handleDeleteTask cft k b a).
Proof.
  intros H. unfold handleDeleteTask.
  destruct (ready a) eqn:R; simpl; [| done].
  intros R'. exfalso. revert R'. unfold onSnapshot.
  destruct b; simpl; [| congruence]. rewrite R.
  destruct (focusIs cft k); simpl; congruence.
Qed.

Lemma unready_handleStartFocus cft t b a :
  unreadyEmpty a → unreadyEmpty (handleStartFocus cft t b a).
Proof.
  intros H. unfold handleStartFocus. case_decide; [| done].
  by apply unready_handleUpdateTaskStatus.
Qed.

End AppFacts.

(** * Properties of the page *)

Module SystemFacts.

Lemma findCard_Some k a t :
  findCard k a = Some t → t ∈ App.tasks a ∧ id t = k.
Proof.
  unfold findCard. intros H. apply find_some in H as [H1 H2].
  apply bool_decide_eq_true in H2. split; [| done].
  by apply AppFacts.elem_of_cards, list_elem_of_In.
Qed.

Lemma findCard_card k a t : findCard k a = Some t → t ∈ App.cards a.
Proof.
  unfold findCard. intros H. apply find_some in H as [H1 _].
  by apply list_elem_of_In.
Qed.

(** ** The remaining time stays positive *)

Lemma remaining_tick i t :
  1 ≤ PomodoroTimer.remaining t →
  1 ≤ PomodoroTimer.remaining (PomodoroTimer.tick i t).
Proof.
  intros H. unfold PomodoroTimer.tick.
  destruct (PomodoroTimer.intervals t !! i); [| done].
  destruct (Z.leb_spec (PomodoroTimer.remaining t) 1); [| simpl; lia].
  by case_decide.
Qed.

Lemma remaining_stopTimer t :
  PomodoroTimer.remaining (PomodoroTimer.stopTimer t) = 1500.
Proof. done. Qed.

Lemma remaining_clickStop t :
  1 ≤ PomodoroTimer.remaining t →
  1 ≤ PomodoroTimer.remaining (PomodoroTimer.clickStop t).
Proof.
  intros H. unfold PomodoroTimer.clickStop.
  by destruct (PomodoroTimer.showsStop t).
Qed.

Lemma remaining_clickStart ct t :
  (∀ x, ct = Some x → 1 ≤ focusTime x) →
  1 ≤ PomodoroTimer.remaining t →
  1 ≤ PomodoroTimer.remaining (PomodoroTimer.clickStart ct t).
Proof.
  intros Hc H. unfold PomodoroTimer.clickStart.
  destruct (PomodoroTimer.showsStart t); [| done].
  destruct ct as [x|]; [| done]. simpl.
  unfold PomodoroTimer.startTimer.
  destruct (PomodoroTimer.truthy (PomodoroTimer.intervalId t)); [done |].
  simpl. specialize (Hc x eq_refl). lia.
Qed.

Lemma remaining_taskEffect ct t :
  (∀ x, ct = Some x → 1 ≤ focusTime x) →
  1 ≤ PomodoroTimer.remaining t →
  1 ≤ PomodoroTimer.remaining (PomodoroTimer.taskEffect ct t).
Proof.
  intros Hc H. unfold PomodoroTimer.taskEffect.
  destruct ct as [x|]; case_decide; try done.
  simpl. specialize (Hc x eq_refl). lia.
Qed.

Lemma focusOptions_positive n v :
  TaskForm.focusOptions !! n = Some v → 1 ≤ v.
Proof.
  intros H. apply list_elem_of_lookup_2 in H.
  unfold TaskForm.focusOptions in H.
  repeat (apply elem_of_cons in H as [-> | H]; [lia |]).
  by apply elem_of_nil in H.
Qed.

(** ** Every event preserves [sound] *)

Lemma sound_render s : sound s → sound (render s).
Proof.
  intros [H1 H2 H3 H4]. split; simpl; [| done | done |].
  - by apply TimerFacts.consistent_taskEffect.
  - apply remaining_taskEffect; [apply H2 | done].
Qed.

Lemma sound_handle e s : sound s → sound (handle e s).
Proof.
  intros [H1 H2 H3 H4]. destruct e; simpl.
  - by split.
  - split; simpl; try done. unfold TaskForm.selectFocusTime.
    destruct (TaskForm.focusOptions !! n) eqn:E; [| done].
    simpl. by eapply focusOptions_positive.
  - by split.
  - by split.
  - destruct (isEmpty (trim (TaskForm.title (form s)))); [by split |].
    split; simpl; try done. by apply AppFacts.ok_handleAddTask.
  - destruct (findCard k (app s)) as [t|] eqn:E; [| by split].
    destruct (TaskCard.nextStatus (status t)); [| by split].
    split; simpl; try done.
    by apply AppFacts.ok_handleUpdateTaskStatus.
  - destruct (findCard k (app s)) as [t|] eqn:E; [| by split].
    unfold TaskCard.showsFocus. case_bool_decide; [| by split].
    split; simpl; try done.
    apply AppFacts.ok_handleStartFocus; [done | | done].
    by apply findCard_Some in E as [E _].
  - destruct (findCard k (app s)) as [t|] eqn:E; [| by split].
    split; simpl; try done. by apply AppFacts.ok_handleDeleteTask.
  - split; simpl; try done. by eapply AppFacts.ok_ext, H2.
  - split; simpl; try done.
    + by apply TimerFacts.consistent_clickStart.
    + apply remaining_clickStart; [apply H2 | done].
  - split; simpl; try done.
    + by apply TimerFacts.consistent_clickStop.
    + by apply remaining_clickStop.
  - split; simpl; try done;
      by rewrite TimerFacts.clickTakeBreak_noop.
  - split; simpl; try done.
    + by apply TimerFacts.consistent_tick.
    + by apply remaining_tick.
  - split; simpl; try done. by apply AppFacts.ok_onSnapshot.
Qed.

Lemma sound_dispatch e s : sound s → sound (dispatch e s).
Proof. intros H. by apply sound_render, sound_handle. Qed.

Lemma sound_initial uid rdy ds : validDocs ds → sound (initial uid rdy ds).
Proof.
  intros H. apply sound_render. split; simpl.
  - apply TimerFacts.consistent_init.
  - by apply AppFacts.ok_init.
  - done.
  - done.
Qed.

Lemma reachable_sound s : reachable s → sound s.
Proof.
  induction 1 as [uid rdy ds H | e s _ IH].
  - by apply sound_initial.
  - by apply sound_dispatch.
Qed.

Lemma reachable_run es s : reachable s → reachable (run es s).
Proof.
  revert s. induction es as [|e es IH]; intros s H; [done |].
  apply IH. by constructor.
Qed.

(** Every reachable state has been rendered: its effect has run. *)
Lemma reachable_rendered s : reachable s → render s = s.
Proof.
  assert (R : ∀ x, render (render x) = render x).
  { intros x. unfold render. simpl. unfold withTimer. simpl.
    by rewrite TimerFacts.taskEffect_idempotent. }
  destruct 1; apply R.
Qed.

(** ** Firings of an interval, seen from the page *)

Lemma dispatch_Tick_busy i t s :
  App.currentFocusTask (app s) = Some t →
  PomodoroTimer.status (PomodoroTimer.tick i (timer s))
    ≠ PomodoroTimer.idle →
  dispatch (Tick i) s = withTimer (PomodoroTimer.tick i (timer s)) s.
Proof.
  intros Hf Hs. unfold dispatch, render. simpl. rewrite Hf.
  by rewrite TimerFacts.taskEffect_busy.
Qed.

Lemma withTimer_same s : withTimer (timer s) s = s.
Proof. by destruct s. Qed.

Lemma run_ticks_busy i t (n : nat) s :
  App.currentFocusTask (app s) = Some t →
  (∀ m, (1 ≤ m ≤ n)%nat →
        PomodoroTimer.status (PomodoroTimer.ticks i m (timer s))
          ≠ PomodoroTimer.idle) →
  run (replicate n (Tick i)) s
  = withTimer (PomodoroTimer.ticks i n (timer s)) s.
Proof.
  revert s. induction n as [|n IH]; intros s Hf Hs.
  - simpl. by rewrite withTimer_same.
  - simpl. rewrite (dispatch_Tick_busy i t) by (done || apply (Hs 1%nat); lia).
    rewrite IH; simpl.
    + by rewrite <- TimerFacts.ticks_succ_inner.
    + done.
    + intros m Hm. rewrite <- TimerFacts.ticks_succ_inner.
      apply Hs. lia.
Qed.

(** ** Lemmas on single events *)

Lemma reachable_unready s :
  reachable s → AppInvariant.unreadyEmpty (app s).
Proof.
  induction 1 as [uid rdy ds H | e s _ IH]; [done |].
  unfold dispatch, render. simpl. destruct e; simpl; try done.
  - destruct (isEmpty (trim (TaskForm.title (form s)))); [done |].
    by apply AppFacts.unready_handleAddTask.
  - destruct (findCard k (app s)) as [t|]; [| done].
    destruct (TaskCard.nextStatus (status t)); [| done].
    by apply AppFacts.unready_handleUpdateTaskStatus.
  - destruct (findCard k (app s)) as [t|]; [| done].
    destruct (TaskCard.showsFocus t); [| done].
    by apply AppFacts.unready_handleStartFocus.
  - destruct (findCard k (app s)) as [t|]; [| done].
    by apply AppFacts.unready_handleDeleteTask.
  - by apply AppFacts.unready_onSnapshot.
Qed.

(** Where there is a card, the collection reference is not null. *)
Lemma card_ready s k t :
  reachable s → findCard k (app s) = Some t → App.ready (app s) = true.
Proof.
  intros H Hc. destruct (App.ready (app s)) eqn:R; [done |].
  apply findCard_Some in Hc as [Hc _].
  rewrite (reachable_unready s H R) in Hc. by apply elem_of_nil in Hc.
Qed.

Lemma dispatch_Tick_no_interval i s :
  reachable s → PomodoroTimer.intervals (timer s) = ∅ →
  dispatch (Tick i) s = s.
Proof.
  intros H E. unfold dispatch. simpl.
  rewrite TimerFacts.tick_none by (by rewrite E, lookup_empty).
  rewrite withTimer_same. by apply reachable_rendered.
Qed.

Lemma run_Tick_no_interval n i s :
  reachable s → PomodoroTimer.intervals (timer s) = ∅ →
  run (replicate n (Tick i)) s = s.
Proof.
  intros H E. induction n as [|n IH]; [done |].
  simpl. by rewrite dispatch_Tick_no_interval.
Qed.

(** In every reachable state the Take a Break button does nothing. *)
Lemma dispatch_ClickTakeBreak s :
  reachable s → dispatch ClickTakeBreak s = s.
Proof.
  intros H. unfold dispatch. simpl.
  rewrite TimerFacts.clickTakeBreak_noop
    by apply (sound_timer s (reachable_sound s H)).
  rewrite withTimer_same. by apply reachable_rendered.
Qed.

Lemma dispatch_ClickStart_idle s a :
  PomodoroTimer.consistent (timer s) →
  PomodoroTimer.status (timer s) = PomodoroTimer.idle →
  App.currentFocusTask (app s) = Some a →
  dispatch ClickStart s
  = withTimer
      (PomodoroTimer.startTimer (Some a) PomodoroTimer.running
         (focusTime a) (timer s)) s.
Proof.
  intros Hc Hs Hf. unfold dispatch, render. simpl. rewrite Hf.
  unfold PomodoroTimer.clickStart, PomodoroTimer.showsStart.
  rewrite Hs. simpl.
  destruct (TimerFacts.consistent_idle _ Hc Hs) as [Hi _].
  by rewrite decide_False by (by rewrite TimerFacts.startTimer_idle).
Qed.

Lemma dispatch_ClickFocus_busy s k b ok :
  findCard k (app s) = Some b → TaskCard.showsFocus b = true →
  PomodoroTimer.status (timer s) ≠ PomodoroTimer.idle →
  dispatch (ClickFocus k ok) s
  = withApp
      (App.handleStartFocus (App.currentFocusTask (app s)) b ok (app s)) s.
Proof.
  intros Hc Hb Hs. unfold dispatch, render. simpl. rewrite Hc, Hb. simpl.
  rewrite AppFacts.focus_handleStartFocus.
  by rewrite TimerFacts.taskEffect_busy.
Qed.

(** While [running] exactly one interval is active; while [idle] or in
    [break] none is; and [startTimer] does nothing when one is. *)
Lemma tick_active_iff_running s :
  reachable s →
  (PomodoroTimer.status (timer s) = PomodoroTimer.running ↔
   ∃ i c, PomodoroTimer.intervals (timer s) = {[i := c]})
  ∧ (PomodoroTimer.status (timer s) ≠ PomodoroTimer.running ↔
     PomodoroTimer.intervals (timer s) = ∅)
  ∧ (PomodoroTimer.intervals (timer s) ≠ ∅ →
     ∀ ct st d,
       PomodoroTimer.startTimer ct st d (timer s) = timer s).
Proof.
  intros H. pose proof (sound_timer s (reachable_sound s H)) as [_ Hc].
  destruct (PomodoroTimer.status (timer s)) eqn:Es.
  - destruct Hc as [Hi Hm]. rewrite Hm. split; [| split]; try done.
    split; [done |]. intros (i & c & E).
    apply (f_equal (λ m, m !! i)) in E.
    by rewrite lookup_empty, lookup_singleton_eq in E.
  - destruct Hc as (i & c & Hi & Hm & _). rewrite Hm.
    split; [| split].
    + split; [by exists (S i), c | done].
    + split; [done |]. intros E.
      apply (f_equal (λ m, m !! S i)) in E.
      by rewrite lookup_empty, lookup_singleton_eq in E.
    + intros _ ct st d. apply TimerFacts.startTimer_active.
      by rewrite Hi.
  - destruct Hc as [Hi Hm]. rewrite Hm. split; [| split]; try done.
    split; [done |]. intros (i & c & E).
    apply (f_equal (λ m, m !! i)) in E.
    by rewrite lookup_empty, lookup_singleton_eq in E.
Qed.

(** The Stop button, seen from the page: [stopTimer] stores 1500 seconds,
    and the effect, run because the status changed, then stores the focus
    time of the task that is still focused. *)
Lemma dispatch_ClickStop_focused s t :
  PomodoroTimer.status (timer s) ≠ PomodoroTimer.idle →
  App.currentFocusTask (app s) = Some t →
  timer (dispatch ClickStop s)
  = PomodoroTimer.setRemaining (focusTime t * 60)
      (PomodoroTimer.stopTimer (timer s)).
Proof.
  intros Hs Hf. unfold dispatch, render. simpl. rewrite Hf.
  unfold PomodoroTimer.clickStop, PomodoroTimer.showsStop.
  destruct (PomodoroTimer.status (timer s)) eqn:E; done.
Qed.

(** After the Stop button no firing changes the page any more. *)
Lemma run_Tick_after_stop n i s :
  reachable s →
  run (replicate n (Tick i)) (dispatch ClickStop s) = dispatch ClickStop s.
Proof.
  intros H. apply run_Tick_no_interval; [by constructor |].
  unfold dispatch, render. simpl.
  pose proof (sound_timer s (reachable_sound s H)) as Hc.
  assert (Hs : PomodoroTimer.status (PomodoroTimer.clickStop (timer s))
               = PomodoroTimer.idle).
  { unfold PomodoroTimer.clickStop, PomodoroTimer.showsStop.
    by destruct (PomodoroTimer.status (timer s)) eqn:E. }
  apply TimerFacts.consistent_idle.
  - by apply TimerFacts.consistent_taskEffect,
      TimerFacts.consistent_clickStop.
  - unfold PomodoroTimer.taskEffect.
    destruct (App.currentFocusTask (app s));
      by rewrite decide_True by done.
Qed.

End SystemFacts.

(** * Trimming *)

Lemma trimStart_nil s : trimStart s = [] ↔ forallb isWhiteSpace s = true.
Proof.
  induction s as [|c r IH]; simpl; [done |].
  destruct (isWhiteSpace c); simpl; [done |]. split; discriminate.
Qed.

Lemma trimStart_head s c r : trimStart s = c :: r → isWhiteSpace c = false.
Proof.
  induction s as [|x s IH]; simpl; [discriminate |].
  destruct (isWhiteSpace x) eqn:E; [done |]. by intros [= <- _].
Qed.

Lemma forallb_rev {A} (f : A → bool) l :
  forallb f (rev l) = true ↔ forallb f l = true.
Proof.
  rewrite !forallb_forall. split; intros H x Hx; apply H.
  - by apply in_rev in Hx.
  - by apply in_rev.
Qed.

(** [trim] yields the empty string exactly on the strings made of white
    space only. *)
Lemma trim_nil s : trim s = [] ↔ forallb isWhiteSpace s = true.
Proof.
  unfold trim, trimEnd. rewrite <- trimStart_nil. split.
  - intros H. apply (f_equal (@rev N)) in H. rewrite rev_involutive in H.
    simpl in H. apply trimStart_nil in H. rewrite forallb_rev in H.
    destruct (trimStart s) as [|c r] eqn:E; [done |].
    apply trimStart_head in E. rewrite forallb_forall in H.
    specialize (H c (or_introl eq_refl)). congruence.
  - by intros ->.
Qed.

(** * The session is reachable *)

Module SessionFacts.
Import Session.

Lemma reachable_loaded : reachable loaded.
Proof. constructor. apply map_Forall_empty. Qed.

Lemma reachable_created : reachable created.
Proof. apply SystemFacts.reachable_run, reachable_loaded. Qed.

Lemma reachable_focused : reachable focused.
Proof. constructor. apply reachable_created. Qed.

Lemma reachable_started : reachable started.
Proof. constructor. apply reachable_focused. Qed.

Lemma reachable_counting : reachable counting.
Proof. apply SystemFacts.reachable_run, reachable_started. Qed.

Lemma reachable_expired : reachable expired.
Proof. apply SystemFacts.reachable_run, reachable_started. Qed.

Lemma reachable_twoTasks : reachable twoTasks.
Proof. apply SystemFacts.reachable_run, reachable_created. Qed.

Lemma reachable_mailDone : reachable mailDone.
Proof. apply SystemFacts.reachable_run, reachable_twoTasks. Qed.

End SessionFacts.

(** * The display *)

Module DisplayFacts.
Import Display.

Lemma readUint_digitUnits u : readUint (digitUnits u) = Some u.
Proof. induction u; simpl; by rewrite ?IHu. Qed.

Lemma toString_nonneg z :
  0 ≤ z → toString z = digitUnits (N.to_uint (Z.to_N z)).
Proof. intros H. destruct z; [done | done | lia]. Qed.

Lemma readNat_toString z : 0 ≤ z → readNat (toString z) = Some (Z.to_N z).
Proof.
  intros H. rewrite toString_nonneg by done. unfold readNat.
  rewrite readUint_digitUnits. simpl. by rewrite Unsigned.of_to.
Qed.

(** Leading zeros do not change the number. *)
Lemma readNat_zeros k s : readNat (replicate k 48%N ++ s) = readNat s.
Proof.
  induction k as [|k IH]; [done |]. revert IH. unfold readNat. simpl.
  destruct (readUint (replicate k 48%N ++ s)), (readUint s);
    simpl; congruence.
Qed.

Lemma readNat_padStart n s : readNat (padStart n s) = readNat s.
Proof. apply readNat_zeros. Qed.

Lemma seconds_twoUnits (n : nat) :
  (n < 60)%nat → twoUnits (padStart 2 (toString (Z.of_nat n))) = true.
Proof.
  intros H.
  do 60 (destruct n as [|n]; [vm_compute; reflexivity |]). lia.
Qed.

Lemma formatTime_below_100_minutes t :
  0 ≤ t < 6000 → fiveUnits t (PomodoroTimer.formatTime t) = true.
Proof.
  intros H.
  assert (A : forallb
                (λ k, fiveUnits (Z.of_nat k)
                        (PomodoroTimer.formatTime (Z.of_nat k)))
                (seq 0 (Z.to_nat 6000)) = true) by (vm_compute; reflexivity).
  rewrite forallb_forall in A. specialize (A (Z.to_nat t)).
  rewrite Z2Nat.id in A by lia. apply A, in_seq. lia.
Qed.

Lemma readTime_app m a b :
  readTime (m ++ [58%N; a; b])
  = match readNat m, readNat [a; b] with
    | Some q, Some r => Some (Z.of_N (60 * q + r))
    | _, _ => None
    end.
Proof.
  unfold readTime. rewrite rev_app_distr. simpl. by rewrite rev_involutive.
Qed.

Lemma readTime_formatTime t :
  0 ≤ t → readTime (PomodoroTimer.formatTime t) = Some t.
Proof.
  intros H. unfold PomodoroTimer.formatTime.
  assert (Hr : 0 ≤ Z.rem t 60 < 60) by (apply Z.rem_bound_pos; lia).
  assert (Hq : 0 ≤ t / 60) by (apply Z.div_pos; lia).
  assert (Ht : t = 60 * (t / 60) + Z.rem t 60).
  { rewrite Z.rem_mod_nonneg by lia. apply Z.div_mod. lia. }
  pose proof (readNat_toString _ (proj1 Hr)) as Rs.
  rewrite <- (readNat_padStart 2) in Rs.
  pose proof (seconds_twoUnits (Z.to_nat (Z.rem t 60)) ltac:(lia)) as Hs.
  rewrite Z2Nat.id in Hs by lia.
  destruct (padStart 2 (toString (Z.rem t 60))) as [|a [|b [|??]]];
    try discriminate Hs.
  change (units ":" ++ [a; b]) with [58%N; a; b].
  rewrite readTime_app, Rs, readNat_padStart, readNat_toString by done.
  f_equal. lia.
Qed.

End DisplayFacts.

(** * The stages of the awaiting handlers *)

Module AsyncFacts.











(** While the timer is not idle a task is focused. *)
Lemma reachable_busy_focus s :
  reachable s → PomodoroTimer.status (timer s) ≠ PomodoroTimer.idle →
  ∃ t, App.currentFocusTask (app s) = Some t.
Proof.
  intros H Hs. destruct (App.currentFocusTask (app s)) as [t|] eqn:Hf;
    [by exists t |].
  exfalso. pose proof (SystemFacts.reachable_rendered s H) as Hr.
  apply (f_equal timer) in Hr. unfold render in Hr. simpl in Hr.
  rewrite Hf in Hr. simpl in Hr. rewrite decide_False in Hr by done.
  apply Hs. by rewrite <- Hr.
Qed.

End AsyncFacts.

(** * The claims of the specification *)

(** C1 (the code deviates).  When a focus countdown expires, the timer goes
    from [running] to [break], [onTimerComplete] is called exactly once,
    with the task that was focused, and the remaining time becomes 300
    seconds.  The specification adds that the break then counts down to 0.
    In the code the expiring firing clears its own interval before it
    sets the break up ("Auto-start break"), and nothing starts another:
    evaluated on the session, one second before the end 1 second remains;
    at the end the timer is in [break] with 300 seconds, one completion
    for "Write report" and no interval; and however many seconds pass,
    nothing changes any more. *)
Theorem focus_expiry_freezes_break :
  let before := timer (run (replicate 2699 (Tick 1%nat)) Session.started) in
  let t := timer Session.expired in
  PomodoroTimer.status before = PomodoroTimer.running
  ∧ PomodoroTimer.remaining before = 1
  ∧ PomodoroTimer.status t = PomodoroTimer.break
  ∧ PomodoroTimer.remaining t = 300
  ∧ PomodoroTimer.completions t = [Some Session.report]
  ∧ PomodoroTimer.intervalId t = None
  ∧ PomodoroTimer.intervals t = ∅
  ∧ ∀ n i, run (replicate n (Tick i)) Session.expired = Session.expired.
Proof.
  intros before t.
  do 7 (split; [vm_compute; reflexivity |]).
  intros n i. apply SystemFacts.run_Tick_no_interval.
  - apply SessionFacts.reachable_expired.
  - vm_compute. reflexivity.
Qed.

(** C2 (the code deviates).  The specification has a manual "start break"
    that takes a [running] timer to [break].  In the code the Take a Break
    button, rendered exactly while [running], calls [startTimer('break',
    5)], which returns at once because [intervalId] is set: five seconds
    into the session the button is shown and pressing it changes
    nothing. *)
Theorem take_break_does_nothing :
  PomodoroTimer.status (timer Session.counting) = PomodoroTimer.running
  ∧ PomodoroTimer.remaining (timer Session.counting) = 2695
  ∧ PomodoroTimer.showsTakeBreak (timer Session.counting) = true
  ∧ dispatch ClickTakeBreak Session.counting = Session.counting.
Proof. split_and!; vm_compute; reflexivity. Qed.

(** C3 (the code deviates).  The specification wants exactly one interval
    active whenever the timer is [running] or in [break].  After the
    expiry of a focus countdown the state, which is reachable, is in
    [break] with no interval at all. *)
Theorem break_without_tick :
  reachable Session.expired
  ∧ PomodoroTimer.status (timer Session.expired) = PomodoroTimer.break
  ∧ PomodoroTimer.intervals (timer Session.expired) = ∅
  ∧ size (PomodoroTimer.intervals (timer Session.expired)) = 0%nat.
Proof.
  split; [apply SessionFacts.reachable_expired |].
  split_and!; vm_compute; reflexivity.
Qed.

(** C4 (counterexample).  The specification has Stop reset the remaining
    time to 25 minutes, with no change of it afterwards.  Five seconds
    into the countdown of "Write report" (45 minutes) the state is
    reachable and [running]; when [stopTimer] has run, 1500 seconds are
    stored; the effect on the focused task, which runs because the status
    changed, then stores 2700 seconds, and this is what remains. *)
Lemma stop_restores_focus_time_counterexample :
  reachable Session.counting
  ∧ PomodoroTimer.status (timer Session.counting) = PomodoroTimer.running
  ∧ App.currentFocusTask (app Session.counting) = Some Session.report
  ∧ PomodoroTimer.remaining (timer (handle ClickStop Session.counting))
    = 1500
  ∧ PomodoroTimer.remaining (timer (dispatch ClickStop Session.counting))
    = 2700
  ∧ PomodoroTimer.remaining (timer (dispatch ClickStop Session.counting))
    ≠ 1500.
Proof.
  split; [apply SessionFacts.reachable_counting |].
  split_and!; try (vm_compute; reflexivity).
  vm_compute. discriminate.
Qed.

(** C4 (amended).  In every reachable state in which the timer is
    [running] or in [break] a task is focused, and the Stop button does
    this: [stopTimer] sets the status to [idle], stores 25 minutes (1500
    seconds) and leaves no interval; the effect on the focused task then
    stores the focus time of that task, in seconds.  Afterwards the timer
    is [idle] with that time stored and displayed, no interval exists, no
    completion has been reported for the countdown, and no firing changes
    the page any more, whichever interval the browser is asked to fire and
    however often. *)
Theorem stop_restores_focus_time (s : System) :
  reachable s →
  PomodoroTimer.status (timer s) = PomodoroTimer.running
  ∨ PomodoroTimer.status (timer s) = PomodoroTimer.break →
  ∃ t, App.currentFocusTask (app s) = Some t
    ∧ (let h := handle ClickStop s in
       timer h = PomodoroTimer.stopTimer (timer s)
       ∧ PomodoroTimer.status (timer h) = PomodoroTimer.idle
       ∧ PomodoroTimer.remaining (timer h) = 1500
       ∧ PomodoroTimer.POMODORO_TIME = 25 * 60
       ∧ PomodoroTimer.intervalId (timer h) = None
       ∧ PomodoroTimer.intervals (timer h) = ∅)
    ∧ (let s' := dispatch ClickStop s in
       PomodoroTimer.status (timer s') = PomodoroTimer.idle
       ∧ PomodoroTimer.remaining (timer s') = focusTime t * 60
       ∧ PomodoroTimer.timeToDisplay (App.currentFocusTask (app s'))
           (timer s') = focusTime t * 60
       ∧ PomodoroTimer.intervalId (timer s') = None
       ∧ PomodoroTimer.intervals (timer s') = ∅
       ∧ PomodoroTimer.completions (timer s')
         = PomodoroTimer.completions (timer s)
       ∧ App.currentFocusTask (app s') = Some t
       ∧ ∀ n i, run (replicate n (Tick i)) s' = s').
Proof.
  intros H Hs.
  assert (Hb : PomodoroTimer.status (timer s) ≠ PomodoroTimer.idle)
    by (destruct Hs as [E|E]; by rewrite E).
  destruct (AsyncFacts.reachable_busy_focus s H Hb) as [t Hf].
  exists t. split; [exact Hf |].
  pose proof (sound_timer s (SystemFacts.reachable_sound s H)) as Hc.
  assert (Eh : timer (handle ClickStop s)
               = PomodoroTimer.stopTimer (timer s)).
  { simpl. unfold PomodoroTimer.clickStop, PomodoroTimer.showsStop.
    by destruct Hs as [E|E]; rewrite E. }
  assert (Hi : PomodoroTimer.intervalId (PomodoroTimer.stopTimer (timer s))
               = None
               ∧ PomodoroTimer.intervals
                   (PomodoroTimer.stopTimer (timer s)) = ∅).
  { apply TimerFacts.consistent_idle; [| done].
    by apply TimerFacts.consistent_stopTimer. }
  destruct Hi as [Hi Hm].
  assert (Hk : PomodoroTimer.completions (PomodoroTimer.stopTimer (timer s))
               = PomodoroTimer.completions (timer s)).
  { unfold PomodoroTimer.stopTimer.
    by destruct (PomodoroTimer.intervalId (timer s)) as [[|?]|]. }
  split.
  - intros h. unfold h. rewrite Eh. by split_and!.
  - intros s'.
    pose proof (SystemFacts.dispatch_ClickStop_focused s t Hb Hf) as Et.
    fold s' in Et.
    assert (Hf' : App.currentFocusTask (app s') = Some t) by exact Hf.
    rewrite Hf', Et. split_and!; try done.
    intros n i. by apply SystemFacts.run_Tick_after_stop.
Qed.

Lemma stop_restores_focus_time_witness :
  let s := Session.counting in
  reachable s
  ∧ PomodoroTimer.status (timer s) = PomodoroTimer.running
  ∧ PomodoroTimer.remaining (timer s) = 2695
  ∧ PomodoroTimer.status (timer (dispatch ClickStop s)) = PomodoroTimer.idle
  ∧ PomodoroTimer.remaining (timer (dispatch ClickStop s)) = 45 * 60
  ∧ run (replicate 3 (Tick 1%nat)) (dispatch ClickStop s)
    = dispatch ClickStop s.
Proof.
  intros s.
  assert (Hs : PomodoroTimer.status (timer s) = PomodoroTimer.running
               ∨ PomodoroTimer.status (timer s) = PomodoroTimer.break)
    by (left; vm_compute; reflexivity).
  assert (Hf : App.currentFocusTask (app s) = Some Session.report)
    by (vm_compute; reflexivity).
  destruct (stop_restores_focus_time s SessionFacts.reachable_counting Hs)
    as (t & Ht & _ & H1 & H2 & _ & _ & _ & _ & _ & H3).
  assert (t = Session.report) as -> by congruence.
  split; [apply SessionFacts.reachable_counting |].
  split; [vm_compute; reflexivity |]. split; [vm_compute; reflexivity |].
  split; [exact H1 |]. split; [exact H2 |]. apply (H3 3%nat 1%nat).
Defined.

(** C5.  From [idle], starting focus for a task with a duration of [d]
    minutes ([1 ≤ d]) makes the timer [running] with [d * 60] seconds
    remaining, and every following firing of its interval takes one second
    off: after [k] firings, for every [k < d * 60], the timer is [running]
    with [d * 60 - k] seconds remaining.  The Start button passes the
    focused task's [focusTime] as [d]. *)
Theorem start_focus_counts_down (t : Task) (d : Z) (s : PomodoroTimer.State) :
  PomodoroTimer.consistent s →
  PomodoroTimer.status s = PomodoroTimer.idle →
  1 ≤ d →
  let i := PomodoroTimer.nextInterval s in
  let s1 := PomodoroTimer.startTimer (Some t) PomodoroTimer.running d s in
  PomodoroTimer.status s1 = PomodoroTimer.running
  ∧ PomodoroTimer.remaining s1 = d * 60
  ∧ (∀ k : nat, Z.of_nat k < d * 60 →
       PomodoroTimer.status (PomodoroTimer.ticks i k s1)
       = PomodoroTimer.running
       ∧ PomodoroTimer.remaining (PomodoroTimer.ticks i k s1)
         = d * 60 - Z.of_nat k)
  ∧ (∀ k : nat, Z.of_nat k + 1 < d * 60 →
       PomodoroTimer.remaining
         (PomodoroTimer.tick i (PomodoroTimer.ticks i k s1))
       = PomodoroTimer.remaining (PomodoroTimer.ticks i k s1) - 1)
  ∧ PomodoroTimer.clickStart (Some t) s
    = PomodoroTimer.startTimer (Some t) PomodoroTimer.running
        (focusTime t) s.
Proof.
  intros Hc Hs Hd i s1.
  assert (Hk : ∀ k : nat, Z.of_nat k < d * 60 →
    PomodoroTimer.status (PomodoroTimer.ticks i k s1) = PomodoroTimer.running
    ∧ PomodoroTimer.remaining (PomodoroTimer.ticks i k s1)
      = d * 60 - Z.of_nat k).
  { intros k Hk. unfold s1, i.
    by rewrite TimerFacts.startTimer_running_ticks. }
  destruct (Hk 0%nat ltac:(lia)) as [A B].
  change (PomodoroTimer.ticks i 0 s1) with s1 in A, B.
  split; [exact A |]. split; [rewrite B; lia |].
  split; [exact Hk |]. split.
  - intros k Hlt.
    change (PomodoroTimer.tick i (PomodoroTimer.ticks i k s1))
      with (PomodoroTimer.ticks i (S k) s1).
    rewrite (proj2 (Hk (S k) ltac:(lia))), (proj2 (Hk k ltac:(lia))). lia.
  - unfold PomodoroTimer.clickStart, PomodoroTimer.showsStart.
    by rewrite Hs.
Qed.

Lemma start_focus_counts_down_witness :
  let s := timer Session.focused in
  PomodoroTimer.consistent s
  ∧ PomodoroTimer.status s = PomodoroTimer.idle
  ∧ PomodoroTimer.remaining
      (PomodoroTimer.ticks 1 100
         (PomodoroTimer.startTimer (Some Session.report)
            PomodoroTimer.running 45 s))
    = 45 * 60 - 100.
Proof.
  intros s.
  assert (Hc : PomodoroTimer.consistent s).
  { split; [vm_compute; lia | vm_compute; split; reflexivity]. }
  assert (Hs : PomodoroTimer.status s = PomodoroTimer.idle)
    by (vm_compute; reflexivity).
  split; [exact Hc |]. split; [exact Hs |].
  destruct (start_focus_counts_down Session.report 45 s Hc Hs ltac:(lia))
    as (_ & _ & H & _).
  apply (H 100%nat). vm_compute. reflexivity.
Defined.

(** C6.  The start-focus operation is the Focus button of a card.  On the
    card of a task that is not [complete] it makes that task the focused
    one; when the task is [todo] it also requests the update to
    [in_progress], and once the store has accepted the request the
    document and the task list show the task [in_progress]; when the task
    is [in_progress] the store is left alone.  On the card of a task that
    is [complete] the button is not rendered and the operation does
    nothing: the page is unchanged. *)
Theorem start_focus_from_card (s : System) (k : DocId) (t : Task)
    (ok : bool) :
  reachable s →
  findCard k (app s) = Some t →
  let s' := dispatch (ClickFocus k ok) s in
  (status t ≠ complete → App.currentFocusTask (app s') = Some t)
  ∧ (status t = todo →
     Firestore.calls (App.store (app s'))
     = Firestore.calls (App.store (app s))
         ++ [Firestore.UpdateDoc (id t) in_progress]
     ∧ (ok = true →
        (∃ d, Firestore.docs (App.store (app s')) !! id t = Some d
              ∧ d_status d = in_progress)
        ∧ (∃ u, u ∈ App.tasks (app s') ∧ id u = id t
                ∧ status u = in_progress)))
  ∧ (status t = in_progress → App.store (app s') = App.store (app s))
  ∧ (status t = complete →
     TaskCard.showsFocus t = false
     ∧ handle (ClickFocus k ok) s = s
     ∧ s' = s).
Proof.
  intros H Hc s'.
  pose proof (SystemFacts.card_ready s _ _ H Hc) as R.
  destruct (SystemFacts.findCard_Some _ _ _ Hc) as [Hu Ek].
  destruct (AppInvariant.ok_mirror _
              (sound_app s (SystemFacts.reachable_sound s H)) t Hu)
    as (d & Hl & Et).
  assert (Ea : status t ≠ complete →
    app s' = App.handleStartFocus (App.currentFocusTask (app s)) t ok
               (app s)).
  { intros Hs. unfold s', dispatch, render. simpl. rewrite Hc.
    unfold TaskCard.showsFocus. by rewrite bool_decide_eq_true_2. }
  split_and!.
  - intros Hs. rewrite (Ea Hs). apply AppFacts.focus_handleStartFocus.
  - intros Hs. rewrite Ea by (by rewrite Hs).
    unfold App.handleStartFocus. rewrite decide_True by done.
    unfold App.handleUpdateTaskStatus, Firestore.updateDoc, App.onSnapshot.
    simpl. rewrite R, Hl. simpl. split; [by destruct ok |].
    intros ->. simpl. split.
    + exists (Firestore.withStatus in_progress d).
      by rewrite lookup_insert_eq.
    + exists (fromDoc (id t) (Firestore.withStatus in_progress d)).
      split; [| done]. rewrite AppFacts.sortByCreatedAt_perm.
      apply AppFacts.elem_of_snapshot.
      exists (Firestore.withStatus in_progress d). simpl.
      by rewrite lookup_insert_eq.
  - intros Hs. rewrite Ea by (by rewrite Hs).
    unfold App.handleStartFocus. by rewrite decide_False by (by rewrite Hs).
  - intros Hs.
    assert (Hb : TaskCard.showsFocus t = false).
    { unfold TaskCard.showsFocus. apply bool_decide_eq_false_2.
      by intros ?. }
    assert (Eh : handle (ClickFocus k ok) s = s)
      by (simpl; by rewrite Hc, Hb).
    split; [exact Hb |]. split; [exact Eh |].
    unfold s', dispatch. rewrite Eh.
    by apply SystemFacts.reachable_rendered.
Qed.

Lemma start_focus_from_card_witness :
  reachable Session.created
  ∧ findCard 0%nat (app Session.created) = Some Session.report
  ∧ status Session.report = todo
  ∧ App.currentFocusTask
      (app (dispatch (ClickFocus 0%nat true) Session.created))
    = Some Session.report
  ∧ Firestore.calls
      (App.store (app (dispatch (ClickFocus 0%nat true) Session.created)))
    = Firestore.calls (App.store (app Session.created))
        ++ [Firestore.UpdateDoc 0%nat in_progress]
  ∧ (∃ u, findCard 1%nat (app Session.mailDone) = Some u
          ∧ status u = complete
          ∧ dispatch (ClickFocus 1%nat true) Session.mailDone
            = Session.mailDone).
Proof.
  assert (Hc : findCard 0%nat (app Session.created) = Some Session.report)
    by (vm_compute; reflexivity).
  assert (Hs : status Session.report = todo) by reflexivity.
  destruct (start_focus_from_card Session.created 0%nat Session.report true
              SessionFacts.reachable_created Hc) as (H1 & H2 & _).
  split; [apply SessionFacts.reachable_created |]. split; [exact Hc |].
  split; [exact Hs |]. split; [apply H1; by rewrite Hs |].
  split; [exact (proj1 (H2 Hs)) |].
  assert (Hm : ∃ u, findCard 1%nat (app Session.mailDone) = Some u
                    ∧ status u = complete)
    by (eexists; split; vm_compute; reflexivity).
  destruct Hm as (u & Hu & Hd). exists u.
  split; [exact Hu |]. split; [exact Hd |].
  destruct (start_focus_from_card Session.mailDone 1%nat u true
              SessionFacts.reachable_mailDone Hu) as (_ & _ & _ & H4).
  exact (proj2 (proj2 (H4 Hd))).
Defined.




(** C8.  When the title is empty or made of white space only, so that
    trimming leaves nothing, [handleSubmit] returns before [onAddTask]:
    the form and the controller are unchanged; in particular no request
    reaches the store, the task list is the same, nothing is logged and
    [isSubmitting] is not touched. *)
Theorem blank_title_rejected (f : TaskForm.State) (a : App.State) (now : Z)
    (ok : bool) :
  forallb isWhiteSpace (TaskForm.title f) = true →
  trim (TaskForm.title f) = []
  ∧ TaskForm.handleSubmit now ok (f, a) = (f, a)
  ∧ Firestore.calls (App.store (TaskForm.handleSubmit now ok (f, a)).2)
    = Firestore.calls (App.store a)
  ∧ Firestore.docs (App.store (TaskForm.handleSubmit now ok (f, a)).2)
    = Firestore.docs (App.store a)
  ∧ App.tasks (TaskForm.handleSubmit now ok (f, a)).2 = App.tasks a
  ∧ App.errors (TaskForm.handleSubmit now ok (f, a)).2 = App.errors a
  ∧ (∀ s, form s = f → app s = a → handle (Submit now ok) s = s).
Proof.
  intros H. apply trim_nil in H.
  assert (E : TaskForm.handleSubmit now ok (f, a) = (f, a)).
  { unfold TaskForm.handleSubmit. by rewrite H. }
  rewrite E. split_and!; try done.
  intros s <- <-. simpl. rewrite H. simpl. by destruct s.
Qed.

Lemma blank_title_rejected_witness :
  let f := TaskForm.setTitle [32; 9; 160; 10]%N TaskForm.init in
  forallb isWhiteSpace (TaskForm.title f) = true
  ∧ TaskForm.handleSubmit 0 true (f, app Session.created)
    = (f, app Session.created).
Proof.
  intros f.
  assert (H : forallb isWhiteSpace (TaskForm.title f) = true)
    by (vm_compute; reflexivity).
  split; [exact H |].
  exact (proj1 (proj2 (blank_title_rejected f (app Session.created) 0 true H))).
Defined.

(** C9.  A countdown is started for the focused task [a]; [k] seconds
    later, while it is [running], the Focus button of another card makes
    [b] the focused task.  The timer is untouched by this: still
    [running], with the seconds that remained for [a], not [b]'s focus
    time.  When the countdown expires, [onTimerComplete] is called with
    [a], the task that was focused when the countdown started. *)
Theorem switch_focus_keeps_countdown (s : System) (a b : Task) (kb : DocId)
    (ok : bool) (k : nat) :
  reachable s →
  PomodoroTimer.status (timer s) = PomodoroTimer.idle →
  App.currentFocusTask (app s) = Some a →
  findCard kb (app s) = Some b →
  TaskCard.showsFocus b = true →
  Z.of_nat k < focusTime a * 60 →
  let i := PomodoroTimer.nextInterval (timer s) in
  let s1 := dispatch ClickStart s in
  let s2 := run (replicate k (Tick i)) s1 in
  let s3 := dispatch (ClickFocus kb ok) s2 in
  let s4 :=
    run (replicate (Z.to_nat (focusTime a * 60) - k) (Tick i)) s3 in
  App.currentFocusTask (app s3) = Some b
  ∧ timer s3 = timer s2
  ∧ PomodoroTimer.status (timer s3) = PomodoroTimer.running
  ∧ PomodoroTimer.remaining (timer s3) = focusTime a * 60 - Z.of_nat k
  ∧ PomodoroTimer.status (timer s4) = PomodoroTimer.break
  ∧ PomodoroTimer.completions (timer s4)
    = PomodoroTimer.completions (timer s) ++ [Some a].
Proof.
  intros H Hs Hf Hb Hsb Hk i s1 s2 s3 s4.
  pose proof (SystemFacts.reachable_sound s H) as [Hc Ha _ _].
  assert (Hd : 1 ≤ focusTime a) by (by apply (AppInvariant.ok_focus _ Ha)).
  set (T := PomodoroTimer.startTimer (Some a) PomodoroTimer.running
              (focusTime a) (timer s)).
  assert (E1 : s1 = withTimer T s)
    by (by apply SystemFacts.dispatch_ClickStart_idle).
  assert (Hbusy : ∀ m : nat, (m ≤ Z.to_nat (focusTime a * 60))%nat →
            PomodoroTimer.status (PomodoroTimer.ticks i m T)
              ≠ PomodoroTimer.idle)
    by (intros m Hm; by apply TimerFacts.countdown_busy).
  assert (E2 : s2 = withTimer (PomodoroTimer.ticks i k T) s).
  { unfold s2. rewrite E1.
    rewrite (SystemFacts.run_ticks_busy i a); [done | done |].
    intros m Hm. apply Hbusy. lia. }
  assert (E3 : s3 = withApp (App.handleStartFocus (Some a) b ok (app s)) s2).
  { unfold s3. rewrite (SystemFacts.dispatch_ClickFocus_busy s2 kb b ok).
    - rewrite E2. simpl. by rewrite Hf.
    - by rewrite E2.
    - done.
    - rewrite E2. simpl. apply Hbusy. lia. }
  assert (T3 : timer s3 = PomodoroTimer.ticks i k T) by (by rewrite E3, E2).
  assert (F3 : App.currentFocusTask (app s3) = Some b).
  { rewrite E3. simpl. apply AppFacts.focus_handleStartFocus. }
  assert (T4 : timer s4
               = PomodoroTimer.ticks i (Z.to_nat (focusTime a * 60)) T).
  { unfold s4. rewrite (SystemFacts.run_ticks_busy i b); [| done |].
    - cbn [timer withTimer]. rewrite T3, <- TimerFacts.ticks_add.
      f_equal. lia.
    - intros m Hm. rewrite T3, <- TimerFacts.ticks_add. apply Hbusy. lia. }
  split; [exact F3 |]. split; [by rewrite T3, E2 |].
  rewrite T3, T4. unfold T, i.
  rewrite TimerFacts.startTimer_running_ticks, TimerFacts.focus_expiry
    by done.
  done.
Qed.

Lemma switch_focus_keeps_countdown_witness :
  let s := Session.twoTasks in
  let s3 :=
    dispatch (ClickFocus 1%nat true)
      (run (replicate 5 (Tick 1%nat)) (dispatch ClickStart s)) in
  let s4 := run (replicate (Z.to_nat (45 * 60) - 5) (Tick 1%nat)) s3 in
  reachable s
  ∧ App.currentFocusTask (app s) = Some Session.report
  ∧ findCard 1%nat (app s) = Some Session.mail
  ∧ App.currentFocusTask (app s3) = Some Session.mail
  ∧ PomodoroTimer.remaining (timer s3) = 45 * 60 - 5
  ∧ PomodoroTimer.completions (timer s4) = [Some Session.report].
Proof.
  intros s s3 s4.
  assert (Hs : PomodoroTimer.status (timer s) = PomodoroTimer.idle)
    by (vm_compute; reflexivity).
  assert (Hf : App.currentFocusTask (app s) = Some Session.report)
    by (vm_compute; reflexivity).
  assert (Hb : findCard 1%nat (app s) = Some Session.mail)
    by (vm_compute; reflexivity).
  assert (Hsb : TaskCard.showsFocus Session.mail = true)
    by (vm_compute; reflexivity).
  assert (Hk : Z.of_nat 5 < focusTime Session.report * 60)
    by (vm_compute; reflexivity).
  pose proof (switch_focus_keeps_countdown s Session.report Session.mail
                1%nat true 5%nat SessionFacts.reachable_twoTasks Hs Hf Hb Hsb Hk)
    as (H1 & _ & _ & H2 & _ & H3).
  split; [apply SessionFacts.reachable_twoTasks |].
  split; [exact Hf |]. split; [exact Hb |]. split; [exact H1 |].
  split; [exact H2 | exact H3].
Defined.

(** C10.  In every reachable state the remaining time is at least one
    second, and so is the time displayed; it is never 0.  The firing that
    finds one second remaining does not store 0: it makes the transition
    and stores 300 (a focus countdown) or 1500 (any other) at once. *)
Theorem remaining_never_zero (s : System) :
  reachable s →
  1 ≤ PomodoroTimer.remaining (timer s)
  ∧ PomodoroTimer.remaining (timer s) ≠ 0
  ∧ 1 ≤ PomodoroTimer.timeToDisplay (App.currentFocusTask (app s)) (timer s)
  ∧ (∀ i c, PomodoroTimer.intervals (timer s) !! i = Some c →
            PomodoroTimer.remaining (timer s) = 1 →
            PomodoroTimer.remaining (PomodoroTimer.tick i (timer s))
            = (if decide (PomodoroTimer.newStatus c = PomodoroTimer.running)
               then 300 else 1500)
            ∧ PomodoroTimer.status (PomodoroTimer.tick i (timer s))
              = (if decide
                      (PomodoroTimer.newStatus c = PomodoroTimer.running)
                 then PomodoroTimer.break else PomodoroTimer.idle))
  ∧ (∀ i, 1 ≤ PomodoroTimer.remaining (timer (dispatch (Tick i) s))).
Proof.
  intros H. pose proof (SystemFacts.reachable_sound s H) as [Hc Ha _ Hr].
  split; [done |]. split; [lia |]. split_and!.
  - unfold PomodoroTimer.timeToDisplay.
    destruct (App.currentFocusTask (app s)) as [t|] eqn:Ef; [| done].
    case_decide; [| done].
    pose proof (AppInvariant.ok_focus _ Ha t Ef). lia.
  - intros i c Hi H1. unfold PomodoroTimer.tick. rewrite Hi, H1. simpl.
    by case_decide.
  - intros i. apply sound_remaining, SystemFacts.reachable_sound.
    by constructor.
Qed.

Lemma remaining_never_zero_witness :
  let last := run (replicate 2699 (Tick 1%nat)) Session.started in
  reachable last
  ∧ PomodoroTimer.remaining (timer last) = 1
  ∧ PomodoroTimer.remaining (timer (dispatch (Tick 1%nat) last)) = 300
  ∧ 1 ≤ PomodoroTimer.remaining (timer (dispatch (Tick 1%nat) last)).
Proof.
  intros last.
  assert (H : reachable last)
    by apply SystemFacts.reachable_run, SessionFacts.reachable_started.
  split; [exact H |].
  do 2 (split; [vm_compute; reflexivity |]).
  apply (remaining_never_zero last H).
Defined.

(** * Further properties of the code *)

(** ** The timer on the page *)

Module TimerPageFacts.

Lemma namesTask_tick i t : namesTask t → namesTask (PomodoroTimer.tick i t).
Proof.
  intros [Hc Hm]. unfold PomodoroTimer.tick.
  destruct (PomodoroTimer.intervals t !! i) as [c|] eqn:E; [| done].
  destruct (PomodoroTimer.remaining t <=? 1); [| done].
  case_decide; split; simpl; try done.
  - apply Forall_app. split; [done |]. apply Forall_singleton.
    apply (Hm i c E).
  - by apply map_Forall_delete.
  - by apply map_Forall_delete.
Qed.

Lemma namesTask_stopTimer t :
  namesTask t → namesTask (PomodoroTimer.stopTimer t).
Proof.
  intros [Hc Hm]. unfold PomodoroTimer.stopTimer.
  destruct (PomodoroTimer.intervalId t) as [[|n]|]; split; simpl;
    try done.
  by apply map_Forall_delete.
Qed.

Lemma namesTask_clickStart ct t :
  namesTask t → namesTask (PomodoroTimer.clickStart ct t).
Proof.
  intros [Hc Hm]. unfold PomodoroTimer.clickStart.
  destruct (PomodoroTimer.showsStart t); [| done].
  destruct ct as [x|]; [| done]. simpl. unfold PomodoroTimer.startTimer.
  destruct (PomodoroTimer.truthy (PomodoroTimer.intervalId t)); [done |].
  split; simpl; [done |]. by apply map_Forall_insert_2.
Qed.

Lemma namesTask_taskEffect ct t :
  namesTask t → namesTask (PomodoroTimer.taskEffect ct t).
Proof.
  intros H. unfold PomodoroTimer.taskEffect.
  destruct ct; case_decide; try done. by apply namesTask_stopTimer.
Qed.

Lemma namesTask_handle e s :
  PomodoroTimer.consistent (timer s) →
  namesTask (timer s) → namesTask (timer (handle e s)).
Proof.
  intros Hc H. destruct e; simpl; try done.
  - by destruct (isEmpty (trim (TaskForm.title (form s)))).
  - destruct (findCard k (app s)) as [t|]; [| done].
    by destruct (TaskCard.nextStatus (status t)).
  - destruct (findCard k (app s)) as [t|]; [| done].
    by destruct (TaskCard.showsFocus t).
  - by destruct (findCard k (app s)).
  - by apply namesTask_clickStart.
  - unfold PomodoroTimer.clickStop.
    destruct (PomodoroTimer.showsStop (timer s)); [| done].
    by apply namesTask_stopTimer.
  - by rewrite TimerFacts.clickTakeBreak_noop.
  - by apply namesTask_tick.
Qed.

Lemma reachable_namesTask s : reachable s → namesTask (timer s).
Proof.
  induction 1 as [uid rdy ds H | e s Hr IH].
  - split; simpl; [done | apply map_Forall_empty].
  - unfold dispatch, render. simpl. apply namesTask_taskEffect.
    apply namesTask_handle; [| done].
    apply (sound_timer s (SystemFacts.reachable_sound s Hr)).
Qed.

(** What the effect has established in a rendered state. *)
Lemma rendered_no_focus s :
  render s = s → App.currentFocusTask (app s) = None →
  PomodoroTimer.status (timer s) = PomodoroTimer.idle
  ∧ PomodoroTimer.remaining (timer s) = PomodoroTimer.POMODORO_TIME.
Proof.
  intros Hr Hf. apply (f_equal timer) in Hr. unfold render in Hr.
  simpl in Hr. rewrite Hf in Hr. simpl in Hr.
  destruct (decide (PomodoroTimer.status (timer s) = PomodoroTimer.idle))
    as [E|E].
  - split; [done |]. by rewrite <- Hr.
  - exfalso. apply E. by rewrite <- Hr.
Qed.

Lemma rendered_idle_focus s t :
  render s = s → App.currentFocusTask (app s) = Some t →
  PomodoroTimer.status (timer s) = PomodoroTimer.idle →
  PomodoroTimer.remaining (timer s) = focusTime t * 60.
Proof.
  intros Hr Hf Hs. apply (f_equal timer) in Hr. unfold render in Hr.
  simpl in Hr. rewrite Hf in Hr. simpl in Hr.
  rewrite decide_True in Hr by done. by rewrite <- Hr.
Qed.

(** What [onTimerComplete] has been called with changes in [tick]
    only. *)
Lemma completions_taskEffect ct t :
  PomodoroTimer.completions (PomodoroTimer.taskEffect ct t)
  = PomodoroTimer.completions t.
Proof.
  unfold PomodoroTimer.taskEffect, PomodoroTimer.stopTimer.
  destruct ct; case_decide; try done.
  by destruct (PomodoroTimer.intervalId t) as [[|?]|].
Qed.

Lemma completions_dispatch e s :
  PomodoroTimer.completions (timer (dispatch e s))
  = PomodoroTimer.completions (timer (handle e s)).
Proof. unfold dispatch, render. simpl. apply completions_taskEffect. Qed.

Lemma completions_handle e s :
  PomodoroTimer.consistent (timer s) →
  (∀ i, e ≠ Tick i) →
  PomodoroTimer.completions (timer (handle e s))
  = PomodoroTimer.completions (timer s).
Proof.
  intros Hc He. destruct e; simpl; try done.
  - by destruct (isEmpty (trim (TaskForm.title (form s)))).
  - destruct (findCard k (app s)) as [t|]; [| done].
    by destruct (TaskCard.nextStatus (status t)).
  - destruct (findCard k (app s)) as [t|]; [| done].
    by destruct (TaskCard.showsFocus t).
  - by destruct (findCard k (app s)).
  - unfold PomodoroTimer.clickStart, PomodoroTimer.startTimer.
    destruct (PomodoroTimer.showsStart (timer s)
              && negb (PomodoroTimer.startDisabled
                         (App.currentFocusTask (app s)))); [| done].
    by destruct (PomodoroTimer.truthy (PomodoroTimer.intervalId (timer s))).
  - unfold PomodoroTimer.clickStop, PomodoroTimer.stopTimer.
    destruct (PomodoroTimer.showsStop (timer s)); [| done].
    by destruct (PomodoroTimer.intervalId (timer s)) as [[|?]|].
  - by rewrite TimerFacts.clickTakeBreak_noop.
  - by destruct (He i).
Qed.

(** An event that leaves no task focused has not touched the timer. *)
Lemma handle_no_focus e s :
  reachable s → App.currentFocusTask (app (handle e s)) = None →
  timer (handle e s) = timer s.
Proof.
  intros H Hf.
  pose proof (sound_timer s (SystemFacts.reachable_sound s H)) as Hc.
  assert (N : App.currentFocusTask (app s) = None →
    PomodoroTimer.status (timer s) = PomodoroTimer.idle
    ∧ PomodoroTimer.intervals (timer s) = ∅).
  { intros Hn.
    destruct (rendered_no_focus s (SystemFacts.reachable_rendered s H) Hn)
      as [Hs _].
    split; [done |]. by apply (TimerFacts.consistent_idle _ Hc Hs). }
  destruct e; simpl in *; try done.
  - by destruct (isEmpty (trim (TaskForm.title (form s)))).
  - destruct (findCard k (app s)) as [t|]; [| done].
    by destruct (TaskCard.nextStatus (status t)).
  - destruct (findCard k (app s)) as [t|]; [| done].
    by destruct (TaskCard.showsFocus t).
  - by destruct (findCard k (app s)).
  - rewrite Hf. unfold PomodoroTimer.clickStart. simpl.
    by rewrite andb_false_r.
  - destruct (N Hf) as [Hs _]. unfold PomodoroTimer.clickStop,
      PomodoroTimer.showsStop. by rewrite Hs.
  - by rewrite TimerFacts.clickTakeBreak_noop.
  - destruct (N Hf) as [_ Hm].
    by rewrite TimerFacts.tick_none by (by rewrite Hm, lookup_empty).
Qed.

End TimerPageFacts.

(** X1.  When the focused task is deleted, or marked complete, while its
    countdown is active, the focus is cleared and the effect stops the
    timer: [idle], 25 minutes, no interval, and no completion is
    reported for the abandoned countdown. *)
Theorem clearing_focus_stops_timer (s : System) (t u : Task) :
  reachable s →
  App.currentFocusTask (app s) = Some t →
  findCard (id t) (app s) = Some u →
  (let s' := dispatch (ClickDelete (id t) true) s in
   App.currentFocusTask (app s') = None
   ∧ PomodoroTimer.status (timer s') = PomodoroTimer.idle
   ∧ PomodoroTimer.remaining (timer s') = 1500
   ∧ PomodoroTimer.intervalId (timer s') = None
   ∧ PomodoroTimer.intervals (timer s') = ∅
   ∧ PomodoroTimer.completions (timer s')
     = PomodoroTimer.completions (timer s))
  ∧ (status u = in_progress →
     let s' := dispatch (ClickNextStatus (id t) true) s in
     App.currentFocusTask (app s') = None
     ∧ PomodoroTimer.status (timer s') = PomodoroTimer.idle
     ∧ PomodoroTimer.remaining (timer s') = 1500
     ∧ PomodoroTimer.intervalId (timer s') = None
     ∧ PomodoroTimer.intervals (timer s') = ∅
     ∧ PomodoroTimer.completions (timer s')
       = PomodoroTimer.completions (timer s)).
Proof.
  intros H Hf Hc.
  pose proof (SystemFacts.card_ready s _ _ H Hc) as R.
  destruct (SystemFacts.findCard_Some _ _ _ Hc) as [Hu Ek].
  destruct (AppInvariant.ok_mirror _ (sound_app s (SystemFacts.reachable_sound s H)) u Hu)
    as (d & Hl & _).
  assert (G : ∀ s', reachable s' → App.currentFocusTask (app s') = None →
    PomodoroTimer.completions (timer s')
    = PomodoroTimer.completions (timer s) →
    App.currentFocusTask (app s') = None
    ∧ PomodoroTimer.status (timer s') = PomodoroTimer.idle
    ∧ PomodoroTimer.remaining (timer s') = 1500
    ∧ PomodoroTimer.intervalId (timer s') = None
    ∧ PomodoroTimer.intervals (timer s') = ∅
    ∧ PomodoroTimer.completions (timer s')
      = PomodoroTimer.completions (timer s)).
  { intros s' H' Hf' Hc'.
    destruct (TimerPageFacts.rendered_no_focus s'
                (SystemFacts.reachable_rendered s' H') Hf') as [Hs Hr].
    destruct (TimerFacts.consistent_idle _
                (sound_timer s' (SystemFacts.reachable_sound s' H')) Hs)
      as [Hi Hm].
    done. }
  assert (C : ∀ ct x,
    PomodoroTimer.completions (PomodoroTimer.taskEffect ct x)
    = PomodoroTimer.completions x).
  { intros ct x. unfold PomodoroTimer.taskEffect, PomodoroTimer.stopTimer.
    destruct ct; case_decide; try done.
    by destruct (PomodoroTimer.intervalId x) as [[|?]|]. }
  split.
  - intros s'. apply G; [by constructor | |].
    + unfold s', dispatch, render. simpl. rewrite Hc, Hf. simpl.
      rewrite Ek. by apply AppFacts.focus_handleDeleteTask.
    + unfold s', dispatch, render. simpl. rewrite Hc. simpl. apply C.
  - intros Hs s'. apply G; [by constructor | |].
    + unfold s', dispatch, render. simpl. rewrite Hc, Hs, Hf. simpl.
      rewrite Ek.
      apply AppFacts.focus_handleUpdateTaskStatus_complete; [done |].
      rewrite <- Ek. by exists d.
    + unfold s', dispatch, render. simpl. rewrite Hc, Hs. simpl. apply C.
Qed.

Lemma clearing_focus_stops_timer_witness :
  let s := Session.counting in
  reachable s
  ∧ App.currentFocusTask (app s) = Some Session.report
  ∧ PomodoroTimer.status (timer s) = PomodoroTimer.running
  ∧ PomodoroTimer.status (timer (dispatch (ClickDelete 0%nat true) s))
    = PomodoroTimer.idle
  ∧ PomodoroTimer.intervals (timer (dispatch (ClickDelete 0%nat true) s))
    = ∅.
Proof.
  intros s.
  assert (Hf : App.currentFocusTask (app s) = Some Session.report)
    by (vm_compute; reflexivity).
  assert (Hc : ∃ u, findCard (id Session.report) (app s) = Some u)
    by (eexists; vm_compute; reflexivity).
  destruct Hc as [u Hc].
  destruct (clearing_focus_stops_timer s Session.report u
              SessionFacts.reachable_counting Hf Hc)
    as [(_ & H1 & _ & _ & H2 & _) _].
  split; [apply SessionFacts.reachable_counting |]. split; [exact Hf |].
  split; [vm_compute; reflexivity |]. split; [exact H1 | exact H2].
Defined.

(** X2.  Focusing a task while the timer is idle arms the timer without
    starting it: the task becomes the focused one, the timer stays [idle]
    with no interval and shows the focus time of the task; pressing Start
    then begins the countdown from that time. *)
Theorem focus_while_idle_arms_timer (s : System) (k : DocId) (b : Task)
    (ok : bool) :
  reachable s →
  PomodoroTimer.status (timer s) = PomodoroTimer.idle →
  findCard k (app s) = Some b →
  TaskCard.showsFocus b = true →
  let s' := dispatch (ClickFocus k ok) s in
  App.currentFocusTask (app s') = Some b
  ∧ PomodoroTimer.status (timer s') = PomodoroTimer.idle
  ∧ PomodoroTimer.remaining (timer s') = focusTime b * 60
  ∧ PomodoroTimer.timeToDisplay (Some b) (timer s') = focusTime b * 60
  ∧ PomodoroTimer.intervals (timer s') = ∅
  ∧ PomodoroTimer.completions (timer s')
    = PomodoroTimer.completions (timer s)
  ∧ PomodoroTimer.status (timer (dispatch ClickStart s'))
    = PomodoroTimer.running
  ∧ PomodoroTimer.remaining (timer (dispatch ClickStart s'))
    = focusTime b * 60.
Proof.
  intros H Hs Hc Hb s'.
  assert (H' : reachable s') by (by constructor).
  assert (Hf : App.currentFocusTask (app s') = Some b).
  { unfold s', dispatch, render. simpl. rewrite Hc, Hb. simpl.
    apply AppFacts.focus_handleStartFocus. }
  assert (Et : timer s'
               = PomodoroTimer.setRemaining (focusTime b * 60) (timer s)).
  { unfold s', dispatch, render. simpl. rewrite Hc, Hb. simpl.
    rewrite AppFacts.focus_handleStartFocus. simpl.
    by rewrite decide_True. }
  pose proof (sound_timer s' (SystemFacts.reachable_sound s' H')) as Hk.
  assert (Hs' : PomodoroTimer.status (timer s') = PomodoroTimer.idle)
    by (by rewrite Et).
  destruct (TimerFacts.consistent_idle _ Hk Hs') as [Hi Hm].
  split; [done |]. split; [done |]. split; [by rewrite Et |].
  split; [unfold PomodoroTimer.timeToDisplay; by rewrite decide_True |].
  split; [done |]. split; [by rewrite Et |].
  rewrite (SystemFacts.dispatch_ClickStart_idle s' b) by done. simpl.
  by rewrite TimerFacts.startTimer_idle.
Qed.

Lemma focus_while_idle_arms_timer_witness :
  let s := Session.created in
  reachable s
  ∧ PomodoroTimer.status (timer s) = PomodoroTimer.idle
  ∧ findCard 0%nat (app s) = Some Session.report
  ∧ PomodoroTimer.remaining (timer (dispatch (ClickFocus 0%nat true) s))
    = 45 * 60
  ∧ PomodoroTimer.intervals (timer (dispatch (ClickFocus 0%nat true) s))
    = ∅.
Proof.
  intros s.
  assert (Hs : PomodoroTimer.status (timer s) = PomodoroTimer.idle)
    by (vm_compute; reflexivity).
  assert (Hc : findCard 0%nat (app s) = Some Session.report)
    by (vm_compute; reflexivity).
  assert (Hb : TaskCard.showsFocus Session.report = true)
    by (vm_compute; reflexivity).
  destruct (focus_while_idle_arms_timer s 0%nat Session.report true
              SessionFacts.reachable_created Hs Hc Hb)
    as (_ & _ & H1 & _ & H2 & _).
  split; [apply SessionFacts.reachable_created |]. split; [exact Hs |].
  split; [exact Hc |]. split; [exact H1 | exact H2].
Defined.

(** X3.  [onTimerComplete] is never called with [null]: every completion
    reported so far names a task, and so does the closure of every active
    interval ([handlePomodoroComplete] reads [task.title]). *)
Theorem completion_names_a_task (s : System) :
  reachable s →
  Forall is_Some (PomodoroTimer.completions (timer s))
  ∧ (∀ i c, PomodoroTimer.intervals (timer s) !! i = Some c →
            is_Some (PomodoroTimer.currentTask c)).
Proof.
  intros H. destruct (TimerPageFacts.reachable_namesTask s H) as [H1 H2].
  split; [done |]. intros i c E. apply (H2 i c E).
Qed.

Lemma completion_names_a_task_witness :
  reachable Session.expired
  ∧ PomodoroTimer.completions (timer Session.expired)
    = [Some Session.report]
  ∧ Forall is_Some (PomodoroTimer.completions (timer Session.expired)).
Proof.
  split; [apply SessionFacts.reachable_expired |].
  split; [vm_compute; reflexivity |].
  apply (completion_names_a_task Session.expired
           SessionFacts.reachable_expired).
Defined.

(** X4.  A countdown that is stopped never reports completion: after the
    Stop button, however often and whichever interval the browser fires,
    the completions are those reported before. *)
Theorem stopped_countdown_never_completes (s : System) (n i : nat) :
  reachable s →
  PomodoroTimer.completions
    (timer (run (replicate n (Tick i)) (dispatch ClickStop s)))
  = PomodoroTimer.completions (timer s).
Proof.
  intros H. rewrite SystemFacts.run_Tick_after_stop by done.
  unfold dispatch, render. simpl.
  unfold PomodoroTimer.taskEffect, PomodoroTimer.clickStop,
    PomodoroTimer.stopTimer.
  destruct (App.currentFocusTask (app s)), (PomodoroTimer.showsStop (timer s));
    repeat case_decide; simpl;
    by destruct (PomodoroTimer.intervalId (timer s)) as [[|?]|].
Qed.

Lemma stopped_countdown_never_completes_witness :
  reachable Session.counting
  ∧ PomodoroTimer.completions
      (timer (run (replicate (Z.to_nat 3000) (Tick 1%nat))
                (dispatch ClickStop Session.counting)))
    = [].
Proof.
  split; [apply SessionFacts.reachable_counting |].
  rewrite (stopped_countdown_never_completes Session.counting
             (Z.to_nat 3000) 1 SessionFacts.reachable_counting).
  vm_compute. reflexivity.
Defined.

(** X5.  A completion is reported by the firing that ends a focus
    countdown and by nothing else: when an event changes what
    [onTimerComplete] has been called with, the event is a firing of the
    interval the timer holds, the timer was [running] with one second
    left, and afterwards it is in [break] with 300 seconds.  No button, no
    request to the store, no snapshot and no other firing reports a
    completion. *)
Theorem completion_only_at_expiry (s : System) (e : Event) :
  reachable s →
  PomodoroTimer.completions (timer (dispatch e s))
  ≠ PomodoroTimer.completions (timer s) →
  ∃ i, e = Tick i
    ∧ PomodoroTimer.status (timer s) = PomodoroTimer.running
    ∧ PomodoroTimer.intervalId (timer s) = Some i
    ∧ PomodoroTimer.remaining (timer s) = 1
    ∧ PomodoroTimer.status (timer (dispatch e s)) = PomodoroTimer.break
    ∧ PomodoroTimer.remaining (timer (dispatch e s)) = 300.
Proof.
  intros H Hne.
  pose proof (SystemFacts.reachable_sound s H) as [Hc _ _ Hr].
  rewrite TimerPageFacts.completions_dispatch in Hne.
  destruct e;
    try (exfalso; apply Hne; apply TimerPageFacts.completions_handle;
         done).
  exists i. split; [done |]. simpl in Hne.
  destruct (PomodoroTimer.intervals (timer s) !! i) as [c|] eqn:E;
    [| by rewrite TimerFacts.tick_none in Hne].
  destruct (PomodoroTimer.status (timer s)) eqn:Es.
  - destruct (TimerFacts.consistent_idle _ Hc Es) as [_ Hm].
    by rewrite Hm, lookup_empty in E.
  - destruct (TimerFacts.consistent_running _ Hc Es)
      as (j & c' & Hj & Hm & Hn).
    rewrite Hm in E. apply lookup_singleton_Some in E as [<- <-].
    assert (El : PomodoroTimer.intervals (timer s) !! S j = Some c')
      by (by rewrite Hm, lookup_singleton_eq).
    destruct (Z.le_gt_cases (PomodoroTimer.remaining (timer s)) 1)
      as [Hle|Hgt].
    + destruct (AsyncFacts.reachable_busy_focus s H) as [t Hf];
        [by rewrite Es |].
      assert (Et : timer (dispatch (Tick (S j)) s)
                   = PomodoroTimer.tick (S j) (timer s)).
      { rewrite (SystemFacts.dispatch_Tick_busy (S j) t) by
          (done || by rewrite (TimerFacts.tick_expire_running _ c')).
        done. }
      rewrite Et, (TimerFacts.tick_expire_running _ c') by done.
      split_and!; try done. lia.
    + exfalso. apply Hne.
      by rewrite (TimerFacts.tick_decrement _ c') by (done || lia).
  - destruct (TimerFacts.consistent_break _ Hc Es) as [_ Hm].
    by rewrite Hm, lookup_empty in E.
Qed.

Lemma completion_only_at_expiry_witness :
  let s := run (replicate 2699 (Tick 1%nat)) Session.started in
  reachable s
  ∧ PomodoroTimer.completions (timer s) = []
  ∧ PomodoroTimer.completions (timer (dispatch (Tick 1%nat) s))
    = [Some Session.report]
  ∧ PomodoroTimer.remaining (timer s) = 1
  ∧ PomodoroTimer.status (timer (dispatch (Tick 1%nat) s))
    = PomodoroTimer.break.
Proof.
  intros s.
  assert (H : reachable s)
    by apply SystemFacts.reachable_run, SessionFacts.reachable_started.
  assert (A : PomodoroTimer.completions (timer s) = [])
    by (vm_compute; reflexivity).
  assert (B : PomodoroTimer.completions (timer (dispatch (Tick 1%nat) s))
              = [Some Session.report]) by (vm_compute; reflexivity).
  assert (Hne : PomodoroTimer.completions (timer (dispatch (Tick 1%nat) s))
                ≠ PomodoroTimer.completions (timer s))
    by (rewrite A, B; discriminate).
  destruct (completion_only_at_expiry s (Tick 1%nat) H Hne)
    as (i & _ & _ & _ & H1 & H2 & _).
  split; [exact H |]. split; [exact A |]. split; [exact B |].
  split; [exact H1 | exact H2].
Defined.

(** ** What the timer shows *)

(** X6.  Once the effect of the timer has run, as it has in every state
    of [reachable], the time on display is the stored remaining time:
    while idle with a focused task both are the focus time of that task,
    otherwise the display is [remaining] itself.  In what React renders
    before the effect the two can differ: when the Stop button has been
    handled, the display shows the focus time of the focused task while
    1500 seconds are stored; the effect then stores the focus time. *)
Theorem display_settles_on_remaining (s : System) :
  reachable s →
  PomodoroTimer.timeToDisplay (App.currentFocusTask (app s)) (timer s)
  = PomodoroTimer.remaining (timer s)
  ∧ (∀ t, App.currentFocusTask (app s) = Some t →
          PomodoroTimer.status (timer s) = PomodoroTimer.idle →
          PomodoroTimer.remaining (timer s) = focusTime t * 60)
  ∧ (∀ t, App.currentFocusTask (app s) = Some t →
          PomodoroTimer.status (timer s) ≠ PomodoroTimer.idle →
          let h := handle ClickStop s in
          PomodoroTimer.timeToDisplay (App.currentFocusTask (app h))
            (timer h) = focusTime t * 60
          ∧ PomodoroTimer.remaining (timer h) = 1500
          ∧ PomodoroTimer.remaining (timer (dispatch ClickStop s))
            = focusTime t * 60).
Proof.
  intros H. pose proof (SystemFacts.reachable_rendered s H) as Hr.
  assert (A : ∀ t, App.currentFocusTask (app s) = Some t →
    PomodoroTimer.status (timer s) = PomodoroTimer.idle →
    PomodoroTimer.remaining (timer s) = focusTime t * 60)
    by (intros t Hf Hs; by apply TimerPageFacts.rendered_idle_focus).
  split; [| split; [exact A |]].
  - unfold PomodoroTimer.timeToDisplay.
    destruct (App.currentFocusTask (app s)) as [t|] eqn:Hf; [| done].
    case_decide; [| done]. symmetry. by apply A.
  - intros t Hf Hs h.
    assert (Eh : timer h = PomodoroTimer.stopTimer (timer s)).
    { unfold h. simpl. unfold PomodoroTimer.clickStop,
        PomodoroTimer.showsStop.
      by destruct (PomodoroTimer.status (timer s)). }
    assert (Ef : App.currentFocusTask (app h) = Some t) by exact Hf.
    rewrite Ef, Eh, (SystemFacts.dispatch_ClickStop_focused s t Hs Hf).
    split; [| done]. unfold PomodoroTimer.timeToDisplay.
    by rewrite decide_True.
Qed.

Lemma display_settles_on_remaining_witness :
  reachable Session.counting
  ∧ PomodoroTimer.timeToDisplay
      (App.currentFocusTask (app Session.counting)) (timer Session.counting)
    = PomodoroTimer.remaining (timer Session.counting)
  ∧ PomodoroTimer.remaining (timer Session.counting) = 2695
  ∧ PomodoroTimer.timeToDisplay
      (App.currentFocusTask (app (handle ClickStop Session.counting)))
      (timer (handle ClickStop Session.counting)) = 2700
  ∧ PomodoroTimer.remaining (timer (handle ClickStop Session.counting))
    = 1500.
Proof.
  destruct (display_settles_on_remaining Session.counting
              SessionFacts.reachable_counting) as (H1 & _ & H2).
  assert (Hf : App.currentFocusTask (app Session.counting)
               = Some Session.report) by (vm_compute; reflexivity).
  assert (Hs : PomodoroTimer.status (timer Session.counting)
               ≠ PomodoroTimer.idle) by (vm_compute; discriminate).
  destruct (H2 Session.report Hf Hs) as (H3 & H4 & _).
  split; [apply SessionFacts.reachable_counting |]. split; [exact H1 |].
  split; [vm_compute; reflexivity |]. split; [exact H3 | exact H4].
Defined.

(** X7.  [formatTime] loses nothing: for a time that is not negative, the
    display read back as minutes and seconds gives the time again, so two
    different times are never displayed alike. *)
Theorem formatTime_determines_time (t t' : Z) :
  0 ≤ t → 0 ≤ t' →
  Display.readTime (PomodoroTimer.formatTime t) = Some t
  ∧ (PomodoroTimer.formatTime t = PomodoroTimer.formatTime t' → t = t').
Proof.
  intros H H'. split; [by apply DisplayFacts.readTime_formatTime |].
  intros E. apply (f_equal Display.readTime) in E.
  rewrite !DisplayFacts.readTime_formatTime in E by done. congruence.
Qed.

Lemma formatTime_determines_time_witness :
  0 ≤ 7200 ∧ 0 ≤ 2700
  ∧ PomodoroTimer.formatTime 7200 = units "120:00"
  ∧ Display.readTime (PomodoroTimer.formatTime 7200) = Some 7200.
Proof.
  assert (A : 0 ≤ 7200) by lia. assert (B : 0 ≤ 2700) by lia.
  split; [exact A |]. split; [exact B |].
  split; [vm_compute; reflexivity |].
  exact (proj1 (formatTime_determines_time 7200 2700 A B)).
Defined.

(** X8.  Below 100 minutes the display has the form [mm:ss]: two digits, a
    colon, two digits, the first digit of the seconds at most 5, and the
    digits denote the time. *)
Theorem formatTime_mm_ss (t : Z) :
  0 ≤ t < 6000 →
  ∃ m1 m2 s1 s2 : N,
    PomodoroTimer.formatTime t = [m1; m2; 58%N; s1; s2]
    ∧ (48 ≤ m1 ≤ 57)%N ∧ (48 ≤ m2 ≤ 57)%N
    ∧ (48 ≤ s1 ≤ 53)%N ∧ (48 ≤ s2 ≤ 57)%N
    ∧ t = 600 * (Z.of_N m1 - 48) + 60 * (Z.of_N m2 - 48)
          + 10 * (Z.of_N s1 - 48) + (Z.of_N s2 - 48).
Proof.
  intros H. pose proof (DisplayFacts.formatTime_below_100_minutes t H) as F.
  destruct (PomodoroTimer.formatTime t) as [|m1 [|m2 [|c [|s1 [|s2 [|??]]]]]];
    try discriminate F.
  unfold Display.fiveUnits, Display.isDigit in F.
  repeat (apply andb_prop in F as [F ?]).
  exists m1, m2, s1, s2.
  assert (c = 58%N) as -> by (by apply N.eqb_eq).
  repeat match goal with
         | X : _ && _ = true |- _ => apply andb_prop in X as [? ?]
         | X : (_ <=? _)%N = true |- _ => apply N.leb_le in X
         | X : (_ =? _) = true |- _ => apply Z.eqb_eq in X
         end.
  split; [done |]. repeat split; try done; lia.
Qed.

Lemma formatTime_mm_ss_witness :
  0 ≤ 2695 < 6000 ∧ PomodoroTimer.formatTime 2695 = units "44:55".
Proof.
  assert (A : 0 ≤ 2695 < 6000) by lia. split; [exact A |].
  destruct (formatTime_mm_ss 2695 A) as (m1 & m2 & s1 & s2 & E & _).
  vm_compute. reflexivity.
Defined.

(** X9.  The caption of the timer.  Once the effect of the timer has run,
    as it has in every state of [reachable]: "Select a Task to Focus" is
    shown exactly when no task is focused; while a countdown runs the
    caption names the focused task; in a break it is "Break Time!"; and
    "Deep Work Session", the caption of a countdown without a task, is
    not shown.  In what React renders when an event has been handled,
    before the effect, "Deep Work Session" is shown exactly when the
    event has cleared the focus of a running countdown; the effect then
    stops the timer. *)
Theorem label_follows_focus_after_effect (s : System) :
  reachable s →
  let l :=
    PomodoroTimer.label (App.currentFocusTask (app s)) (timer s) in
  l ≠ units "Deep Work Session"
  ∧ (l = units "Select a Task to Focus" ↔
     App.currentFocusTask (app s) = None)
  ∧ (PomodoroTimer.status (timer s) = PomodoroTimer.running →
     ∃ t, App.currentFocusTask (app s) = Some t
          ∧ l = units "Focusing on: " ++ title t)
  ∧ (PomodoroTimer.status (timer s) = PomodoroTimer.break →
     l = units "Break Time!")
  ∧ (∀ e, let h := handle e s in
          PomodoroTimer.label (App.currentFocusTask (app h)) (timer h)
          = units "Deep Work Session"
          ↔ PomodoroTimer.status (timer s) = PomodoroTimer.running
            ∧ App.currentFocusTask (app h) = None).
Proof.
  intros H l. pose proof (SystemFacts.reachable_rendered s H) as Hr.
  assert (N : App.currentFocusTask (app s) = None →
              PomodoroTimer.status (timer s) = PomodoroTimer.idle)
    by (intros Hf; by apply TimerPageFacts.rendered_no_focus).
  assert (D : ∀ ct x,
    PomodoroTimer.label ct x = units "Deep Work Session"
    ↔ PomodoroTimer.status x = PomodoroTimer.running ∧ ct = None).
  { intros ct x. unfold PomodoroTimer.label.
    destruct ct as [t|]; repeat case_decide;
      (split; [intros E | intros [E1 E2]]); try done;
      apply (f_equal head) in E; vm_compute in E; discriminate E. }
  split_and!.
  - unfold l. intros E. apply D in E as [E1 E2].
    rewrite (N E2) in E1. discriminate E1.
  - unfold l, PomodoroTimer.label.
    destruct (App.currentFocusTask (app s)) as [t|] eqn:Hf.
    + repeat case_decide;
        (split; intros E; [apply (f_equal head) in E; vm_compute in E |];
         discriminate E).
    + rewrite (N eq_refl). by simpl.
  - intros Hs. destruct (App.currentFocusTask (app s)) as [t|] eqn:Hf.
    + exists t. split; [done |]. unfold l, PomodoroTimer.label.
      by rewrite decide_True.
    + rewrite (N eq_refl) in Hs. discriminate Hs.
  - intros Hs. unfold l, PomodoroTimer.label.
    rewrite decide_False by (by rewrite Hs). by rewrite decide_True.
  - intros e h. rewrite D. split.
    + intros [E1 E2]. split; [| done].
      by rewrite <- (TimerPageFacts.handle_no_focus e s H E2).
    + intros [E1 E2]. split; [| done]. unfold h.
      by rewrite (TimerPageFacts.handle_no_focus e s H E2).
Qed.

Lemma label_follows_focus_after_effect_witness :
  reachable Session.counting
  ∧ PomodoroTimer.label (App.currentFocusTask (app Session.counting))
      (timer Session.counting)
    = units "Focusing on: Write report"
  ∧ PomodoroTimer.label (App.currentFocusTask (app Session.counting))
      (timer Session.counting)
    ≠ units "Deep Work Session"
  ∧ PomodoroTimer.label
      (App.currentFocusTask
         (app (handle (ClickDelete 0%nat true) Session.counting)))
      (timer (handle (ClickDelete 0%nat true) Session.counting))
    = units "Deep Work Session"
  ∧ PomodoroTimer.label
      (App.currentFocusTask
         (app (dispatch (ClickDelete 0%nat true) Session.counting)))
      (timer (dispatch (ClickDelete 0%nat true) Session.counting))
    = units "Select a Task to Focus".
Proof.
  destruct (label_follows_focus_after_effect Session.counting
              SessionFacts.reachable_counting) as (H1 & _ & _ & _ & H2).
  split; [apply SessionFacts.reachable_counting |].
  split; [vm_compute; reflexivity |]. split; [exact H1 |].
  split; [| vm_compute; reflexivity].
  apply (H2 (ClickDelete 0%nat true)).
  split; vm_compute; reflexivity.
Defined.

(** ** The board *)

Module BoardFacts.
Import Firestore App.

Lemma insertByCreatedAt_sorted t l :
  StronglySorted older l → StronglySorted older (insertByCreatedAt t l).
Proof.
  induction l as [|u r IH]; intros Hs; simpl.
  - by repeat constructor.
  - apply StronglySorted_inv in Hs as [Hr Hu].
    destruct (Z.leb_spec (createdSeconds t) (createdSeconds u)) as [Hle|Hlt].
    + constructor; [by constructor |]. constructor; [done |].
      eapply Forall_impl; [exact Hu |]. intros x Hx. unfold older in *. lia.
    + constructor; [by apply IH |].
      rewrite AppFacts.insertByCreatedAt_perm. constructor; [| done].
      unfold older. lia.
Qed.

Lemma sortByCreatedAt_sorted l : StronglySorted older (sortByCreatedAt l).
Proof.
  induction l as [|t l IH]; simpl; [constructor |].
  by apply insertByCreatedAt_sorted.
Qed.

(** Insertion puts a task in front of the tasks created in the same
    second. *)
Lemma insertByCreatedAt_stable c t l :
  filter (λ x, createdSeconds x = c) (insertByCreatedAt t l)
  = filter (λ x, createdSeconds x = c) (t :: l).
Proof.
  induction l as [|u r IH]; simpl; [done |].
  destruct (Z.leb_spec (createdSeconds t) (createdSeconds u)) as [Hle|Hlt];
    [done |].
  rewrite (filter_cons _ u), IH, !(filter_cons _ t), (filter_cons _ u).
  destruct (decide (createdSeconds t = c)), (decide (createdSeconds u = c));
    try done. lia.
Qed.

Lemma sortByCreatedAt_stable c l :
  filter (λ x, createdSeconds x = c) (sortByCreatedAt l)
  = filter (λ x, createdSeconds x = c) l.
Proof.
  induction l as [|t l IH]; simpl; [done |].
  by rewrite insertByCreatedAt_stable, !(filter_cons _ t), IH.
Qed.

(** The three columns hold the tasks of the chosen type, each once. *)
Lemma columns_perm (ty : TaskType) (l : list Task) :
  filter (λ t, status t = todo ∧ type t = ty) l
  ++ filter (λ t, status t = in_progress ∧ type t = ty) l
  ++ filter (λ t, status t = complete ∧ type t = ty) l
  ≡ₚ filter (λ t, type t = ty) l.
Proof.
  induction l as [|x l IH]; [done |].
  rewrite !(filter_cons _ x).
  destruct (decide (type x = ty)) as [Et|Et].
  - destruct (status x) eqn:Es.
    + rewrite decide_True, decide_False, decide_False
        by (done || by intros [? _]).
      simpl. by rewrite IH.
    + rewrite decide_False, decide_True, decide_False
        by (done || by intros [? _]).
      simpl. rewrite <- Permutation_middle. by rewrite IH.
    + rewrite decide_False, decide_False, decide_True
        by (done || by intros [? _]).
      simpl. rewrite app_assoc, <- Permutation_middle, <- app_assoc.
      by rewrite IH.
  - by rewrite !decide_False by (by intros [_ ?]).
Qed.

Lemma findCard_unique a k t :
  AppInvariant.distinctIds a → t ∈ cards a → id t = k →
  findCard k a = Some t.
Proof.
  intros Hn Ht Ek. unfold findCard.
  destruct (find (λ x, bool_decide (id x = k)) (cards a)) as [u|] eqn:E.
  - apply find_some in E as [Hu Eu]. apply bool_decide_eq_true in Eu.
    f_equal. apply (AppFacts.NoDup_fmap_eq id (tasks a)); try done.
    + by apply AppFacts.elem_of_cards, list_elem_of_In.
    + by apply AppFacts.elem_of_cards.
    + congruence.
  - exfalso. eapply find_none in E; [| by apply list_elem_of_In].
    apply bool_decide_eq_false in E. done.
Qed.

Lemma elem_of_cards_iff a t :
  t ∈ cards a ↔ t ∈ tasks a ∧ type t = taskTypeFilter a.
Proof.
  unfold cards, filteredTasks.
  rewrite !elem_of_app, !list_elem_of_filter.
  destruct (status t); intuition congruence.
Qed.

End BoardFacts.

(** X10.  The sort of the snapshot listener: the fetched tasks come out
    oldest first (by [createdAt] seconds, a missing one counting as 0),
    none is lost or duplicated, and tasks created in the same second keep
    the order the store gave them. *)
Theorem snapshot_sort_stable (l : list Task) :
  StronglySorted (λ t u, App.createdSeconds t ≤ App.createdSeconds u)
    (App.sortByCreatedAt l)
  ∧ App.sortByCreatedAt l ≡ₚ l
  ∧ (∀ c, filter (λ t, App.createdSeconds t = c) (App.sortByCreatedAt l)
          = filter (λ t, App.createdSeconds t = c) l).
Proof.
  split; [apply BoardFacts.sortByCreatedAt_sorted |].
  split; [apply AppFacts.sortByCreatedAt_perm |].
  intros c. apply BoardFacts.sortByCreatedAt_stable.
Qed.

(** X11.  What a snapshot leaves in the cache: exactly the documents of
    the store, each once, under the identifier of its document; a document
    without [type] is listed as a [project] task.  The store and the focus
    are not touched. *)
Theorem snapshot_lists_each_document_once (a : App.State) :
  App.ready a = true →
  let a' := App.onSnapshot a in
  (∀ t, t ∈ App.tasks a' ↔
        ∃ d, Firestore.docs (App.store a) !! id t = Some d
             ∧ t = fromDoc (id t) d)
  ∧ NoDup (id <$> App.tasks a')
  ∧ length (App.tasks a') = size (Firestore.docs (App.store a))
  ∧ (∀ k d, Firestore.docs (App.store a) !! k = Some d →
            d_type d = None →
            ∃ t, t ∈ App.tasks a' ∧ id t = k ∧ type t = project)
  ∧ App.store a' = App.store a
  ∧ App.currentFocusTask a' = App.currentFocusTask a.
Proof.
  intros R a'. unfold a', App.onSnapshot. rewrite R. simpl.
  assert (M : ∀ t, t ∈ App.sortByCreatedAt (Firestore.snapshot (App.store a))
    ↔ ∃ d, Firestore.docs (App.store a) !! id t = Some d
           ∧ t = fromDoc (id t) d).
  { intros t. rewrite AppFacts.sortByCreatedAt_perm.
    apply AppFacts.elem_of_snapshot. }
  split_and!; try done.
  - rewrite AppFacts.sortByCreatedAt_perm, AppFacts.snapshot_ids.
    apply NoDup_fst_map_to_list.
  - rewrite AppFacts.sortByCreatedAt_perm. unfold Firestore.snapshot.
    by rewrite length_fmap, length_map_to_list.
  - intros k d Hd Ht. exists (fromDoc k d). split; [| split]; [| done |].
    + apply M. by exists d.
    + simpl. by rewrite Ht.
Qed.

Lemma snapshot_lists_each_document_once_witness :
  let a := App.setTasks [] (app Session.twoTasks) in
  App.ready a = true
  ∧ App.tasks a = []
  ∧ length (App.tasks (App.onSnapshot a)) = 2%nat
  ∧ NoDup (id <$> App.tasks (App.onSnapshot a)).
Proof.
  intros a.
  assert (R : App.ready a = true) by (vm_compute; reflexivity).
  destruct (snapshot_lists_each_document_once a R) as (_ & H1 & _).
  split; [exact R |]. do 2 (split; [vm_compute; reflexivity |]).
  exact H1.
Defined.

(** X12.  The three columns partition the tasks of the chosen type: every
    such task is on exactly one column, so that the total of Task Stats is
    the sum of the three column counts; a column lists the tasks that have
    its status and the chosen type, in the order of the cache. *)
Theorem columns_partition_tasks (a : App.State) :
  App.cards a ≡ₚ filter (λ t, type t = App.taskTypeFilter a) (App.tasks a)
  ∧ App.totalOfType a
    = (length (App.filteredTasks todo a)
       + length (App.filteredTasks in_progress a)
       + length (App.filteredTasks complete a))%nat
  ∧ (∀ st, App.filteredTasks st a `sublist_of` App.tasks a)
  ∧ (∀ st t, t ∈ App.filteredTasks st a ↔
             t ∈ App.tasks a ∧ status t = st
             ∧ type t = App.taskTypeFilter a).
Proof.
  split; [apply BoardFacts.columns_perm |]. split; [| split].
  - unfold App.totalOfType.
    rewrite <- (BoardFacts.columns_perm (App.taskTypeFilter a) (App.tasks a)).
    rewrite !length_app. unfold App.filteredTasks. lia.
  - intros st. apply sublist_filter.
  - intros st t. unfold App.filteredTasks. rewrite list_elem_of_filter.
    tauto.
Qed.

(** ** Requests to the store *)

(** X13.  An accepted add: the new document gets an identifier no
    document had, so no existing document is replaced or changed and the
    collection grows by one; it starts as [todo], stamped with the clock
    and the user; after the notification the task is in the cache; the
    submitting flag is down again, the focus and the error log are as
    before. *)
Theorem add_task_accepted (nt : NewTask) (now : Z) (a : App.State) :
  App.ready a = true →
  let a' := App.handleAddTask nt now true a in
  let k := fresh (dom (Firestore.docs (App.store a))) in
  let d :=
    {| d_title := new_title nt; d_focusTime := new_focusTime nt;
       d_energyLevel := new_energyLevel nt; d_type := Some (new_type nt);
       d_status := todo; d_createdAt := Some now;
       d_userId := App.userId a |} in
  Firestore.docs (App.store a) !! k = None
  ∧ Firestore.docs (App.store a') !! k = Some d
  ∧ (∀ j x, Firestore.docs (App.store a) !! j = Some x →
            Firestore.docs (App.store a') !! j = Some x)
  ∧ size (Firestore.docs (App.store a'))
    = S (size (Firestore.docs (App.store a)))
  ∧ fromDoc k d ∈ App.tasks a'
  ∧ Firestore.calls (App.store a')
    = Firestore.calls (App.store a) ++ [Firestore.AddDoc d]
  ∧ App.isSubmitting a' = false
  ∧ App.currentFocusTask a' = App.currentFocusTask a
  ∧ App.errors a' = App.errors a.
Proof.
  intros R a' k d.
  assert (Hk : Firestore.docs (App.store a) !! k = None).
  { apply not_elem_of_dom. apply is_fresh. }
  assert (E : a' = App.setIsSubmitting false
                (App.onSnapshot
                   (App.setStore
                      {| Firestore.docs := <[k:=d]> (Firestore.docs (App.store a));
                         Firestore.calls :=
                           Firestore.calls (App.store a) ++ [Firestore.AddDoc d] |}
                      (App.setIsSubmitting true a)))).
  { unfold a', App.handleAddTask. simpl. by rewrite R. }
  rewrite E. unfold App.onSnapshot. simpl. rewrite R. simpl.
  split_and!; try done.
  - apply lookup_insert_eq.
  - intros j x Hj. rewrite lookup_insert_ne; [done |]. congruence.
  - by apply map_size_insert_None.
  - rewrite AppFacts.sortByCreatedAt_perm. apply AppFacts.elem_of_snapshot.
    exists d. simpl. split; [apply lookup_insert_eq | done].
Qed.

Lemma add_task_accepted_witness :
  let a := app Session.created in
  let nt :=
    {| new_title := Session.readMail; new_focusTime := 15;
       new_energyLevel := Low; new_type := daily |} in
  App.ready a = true
  ∧ size (Firestore.docs (App.store (App.handleAddTask nt 60 true a)))
    = 2%nat
  ∧ App.isSubmitting (App.handleAddTask nt 60 true a) = false.
Proof.
  intros a nt.
  assert (R : App.ready a = true) by (vm_compute; reflexivity).
  destruct (add_task_accepted nt 60 a R)
    as (_ & _ & _ & H1 & _ & _ & H2 & _).
  split; [exact R |]. split; [| exact H2].
  rewrite H1. vm_compute. reflexivity.
Defined.

(** X14.  An accepted status update changes the [status] of that one
    document and nothing else: its other fields and all other documents
    are as before; the cache shows the updated task; the focus is cleared
    exactly when the new status is [complete] and the handler's focused
    task is this one. *)
Theorem update_status_accepted (cft : option Task) (k : DocId)
    (n : TaskStatus) (a : App.State) (d : Doc) :
  App.ready a = true →
  Firestore.docs (App.store a) !! k = Some d →
  let a' := App.handleUpdateTaskStatus cft k n true a in
  (∃ d', Firestore.docs (App.store a') !! k = Some d'
         ∧ d_status d' = n
         ∧ d_title d' = d_title d ∧ d_focusTime d' = d_focusTime d
         ∧ d_energyLevel d' = d_energyLevel d ∧ d_type d' = d_type d
         ∧ d_createdAt d' = d_createdAt d ∧ d_userId d' = d_userId d
         ∧ fromDoc k d' ∈ App.tasks a')
  ∧ (∀ j, j ≠ k →
          Firestore.docs (App.store a') !! j
          = Firestore.docs (App.store a) !! j)
  ∧ size (Firestore.docs (App.store a'))
    = size (Firestore.docs (App.store a))
  ∧ App.currentFocusTask a'
    = (if bool_decide (n = complete) && App.focusIs cft k then None
       else App.currentFocusTask a)
  ∧ App.errors a' = App.errors a
  ∧ Firestore.calls (App.store a')
    = Firestore.calls (App.store a) ++ [Firestore.UpdateDoc k n].
Proof.
  intros R Hd a'. unfold a', App.handleUpdateTaskStatus, Firestore.updateDoc.
  rewrite R, Hd. simpl. unfold App.onSnapshot. simpl. rewrite R.
  destruct (bool_decide (n = complete) && App.focusIs cft k); simpl.
  all: split_and!; try done.
  all: try (intros j Hj; by rewrite lookup_insert_ne).
  all: try (rewrite map_size_insert; by rewrite Hd).
  all: exists (Firestore.withStatus n d); rewrite lookup_insert_eq;
    split_and!; try done;
    rewrite AppFacts.sortByCreatedAt_perm; apply AppFacts.elem_of_snapshot;
    exists (Firestore.withStatus n d); simpl;
    by rewrite lookup_insert_eq.
Qed.

Lemma update_status_accepted_witness :
  let a := app Session.twoTasks in
  App.ready a = true
  ∧ (∃ d, Firestore.docs (App.store a) !! 1%nat = Some d)
  ∧ size (Firestore.docs
            (App.store
               (App.handleUpdateTaskStatus None 1%nat in_progress true a)))
    = 2%nat.
Proof.
  intros a.
  assert (R : App.ready a = true) by (vm_compute; reflexivity).
  assert (D : ∃ d, Firestore.docs (App.store a) !! 1%nat = Some d)
    by (eexists; vm_compute; reflexivity).
  split; [exact R |]. split; [exact D |]. destruct D as [d D].
  destruct (update_status_accepted None 1%nat in_progress a d R D)
    as (_ & _ & H & _).
  rewrite H. vm_compute. reflexivity.
Defined.

(** X15.  An accepted delete removes that one document (if it was there)
    and no other; afterwards no task of the cache has its identifier; the
    focus is cleared exactly when the handler's focused task is the
    deleted one. *)
Theorem delete_task_accepted (cft : option Task) (k : DocId)
    (a : App.State) :
  App.ready a = true →
  let a' := App.handleDeleteTask cft k true a in
  Firestore.docs (App.store a') !! k = None
  ∧ (∀ j, j ≠ k →
          Firestore.docs (App.store a') !! j
          = Firestore.docs (App.store a) !! j)
  ∧ (∀ t, t ∈ App.tasks a' → id t ≠ k)
  ∧ App.currentFocusTask a'
    = (if App.focusIs cft k then None else App.currentFocusTask a)
  ∧ App.errors a' = App.errors a
  ∧ Firestore.calls (App.store a')
    = Firestore.calls (App.store a) ++ [Firestore.DeleteDoc k].
Proof.
  intros R a'. unfold a', App.handleDeleteTask, Firestore.deleteDoc.
  rewrite R. simpl. unfold App.onSnapshot. simpl. rewrite R.
  assert (T : ∀ t,
    t ∈ App.sortByCreatedAt
          (Firestore.snapshot
             {| Firestore.docs := delete k (Firestore.docs (App.store a));
                Firestore.calls :=
                  Firestore.calls (App.store a) ++ [Firestore.DeleteDoc k] |})
    → id t ≠ k).
  { intros t Ht Ek. rewrite AppFacts.sortByCreatedAt_perm in Ht.
    apply AppFacts.elem_of_snapshot in Ht as (d & Hl & _). simpl in Hl.
    by rewrite Ek, lookup_delete_eq in Hl. }
  destruct (App.focusIs cft k); simpl; split_and!; try done.
  all: try apply lookup_delete_eq.
  all: intros j Hj; by rewrite lookup_delete_ne.
Qed.

Lemma delete_task_accepted_witness :
  let a := app Session.twoTasks in
  App.ready a = true
  ∧ length (App.tasks a) = 2%nat
  ∧ Firestore.docs
      (App.store (App.handleDeleteTask None 1%nat true a)) !! 1%nat = None.
Proof.
  intros a.
  assert (R : App.ready a = true) by (vm_compute; reflexivity).
  split; [exact R |]. split; [vm_compute; reflexivity |].
  exact (proj1 (delete_task_accepted None 1%nat a R)).
Defined.

(** X16.  A request the store rejects changes nothing but the logs: the
    documents, the cache and the focus are as before, the request is
    recorded once and one error is written; after a rejected add the
    submitting flag is down again. *)
Theorem rejected_request_changes_nothing (cft : option Task) (k : DocId)
    (n : TaskStatus) (nt : NewTask) (now : Z) (a : App.State) :
  App.ready a = true →
  let unchanged (a' : App.State) :=
    Firestore.docs (App.store a') = Firestore.docs (App.store a)
    ∧ App.tasks a' = App.tasks a
    ∧ App.currentFocusTask a' = App.currentFocusTask a
    ∧ App.isSubmitting a' = App.isSubmitting a
    ∧ length (Firestore.calls (App.store a'))
      = S (length (Firestore.calls (App.store a))) in
  (unchanged (App.handleUpdateTaskStatus cft k n false a)
   ∧ App.errors (App.handleUpdateTaskStatus cft k n false a)
     = App.errors a ++ [App.ErrorUpdating])
  ∧ (unchanged (App.handleDeleteTask cft k false a)
     ∧ App.errors (App.handleDeleteTask cft k false a)
       = App.errors a ++ [App.ErrorDeleting])
  ∧ (let a' := App.handleAddTask nt now false a in
     Firestore.docs (App.store a') = Firestore.docs (App.store a)
     ∧ App.tasks a' = App.tasks a
     ∧ App.currentFocusTask a' = App.currentFocusTask a
     ∧ App.isSubmitting a' = false
     ∧ length (Firestore.calls (App.store a'))
       = S (length (Firestore.calls (App.store a)))
     ∧ App.errors a' = App.errors a ++ [App.ErrorAdding]).
Proof.
  intros R unchanged. unfold unchanged. split_and!.
  all: unfold App.handleUpdateTaskStatus, App.handleDeleteTask,
         App.handleAddTask, Firestore.updateDoc; simpl; rewrite R; simpl;
       try (destruct (Firestore.docs (App.store a) !! k); simpl);
       rewrite ?length_app; simpl; try done; lia.
Qed.

Lemma rejected_request_changes_nothing_witness :
  let a := app Session.twoTasks in
  App.ready a = true
  ∧ App.errors (App.handleDeleteTask None 1%nat false a)
    = [App.ErrorDeleting]
  ∧ App.tasks (App.handleDeleteTask None 1%nat false a) = App.tasks a.
Proof.
  intros a.
  assert (R : App.ready a = true) by (vm_compute; reflexivity).
  destruct (rejected_request_changes_nothing None 1%nat complete
              {| new_title := []; new_focusTime := 15;
                 new_energyLevel := Low; new_type := daily |} 0 a R)
    as (_ & ((_ & H1 & _) & H2) & _).
  split; [exact R |]. split; [| exact H1].
  rewrite H2. vm_compute. reflexivity.
Defined.

(** ** Strings *)

Module StringFacts.

Lemma trimStart_split s :
  ∃ pre, s = pre ++ trimStart s ∧ forallb isWhiteSpace pre = true.
Proof.
  induction s as [|c r (pre & E & Hp)]; [by exists [] |]. simpl.
  destruct (isWhiteSpace c) eqn:Ec; [| by exists []].
  exists (c :: pre). simpl. rewrite Ec, Hp. split; [| done]. by f_equal.
Qed.

Lemma trimEnd_split s :
  ∃ post, s = trimEnd s ++ post ∧ forallb isWhiteSpace post = true.
Proof.
  destruct (trimStart_split (rev s)) as (pre & E & Hp).
  exists (rev pre). split; [| by apply forallb_rev].
  unfold trimEnd. rewrite <- rev_app_distr, <- E. by rewrite rev_involutive.
Qed.

Lemma trimStart_id s :
  (∀ c, head s = Some c → isWhiteSpace c = false) → trimStart s = s.
Proof.
  destruct s as [|c r]; [done |]. intros H. simpl.
  by rewrite (H c eq_refl).
Qed.

Lemma head_rev {A} (l : list A) : head (rev l) = last l.
Proof.
  induction l as [|x l IH] using rev_ind; [done |].
  rewrite rev_app_distr. simpl. by rewrite last_snoc.
Qed.

Lemma last_rev {A} (l : list A) : last (rev l) = head l.
Proof. by rewrite <- head_rev, rev_involutive. Qed.

Lemma trimEnd_id s :
  (∀ c, last s = Some c → isWhiteSpace c = false) → trimEnd s = s.
Proof.
  intros H. unfold trimEnd. rewrite trimStart_id; [apply rev_involutive |].
  intros c Hc. apply H. by rewrite <- head_rev.
Qed.

Lemma trimStart_head_clean s c :
  head (trimStart s) = Some c → isWhiteSpace c = false.
Proof.
  destruct (trimStart s) as [|x r] eqn:E; [done |]. intros [= <-].
  by eapply trimStart_head.
Qed.

Lemma trimEnd_last_clean s c :
  last (trimEnd s) = Some c → isWhiteSpace c = false.
Proof.
  unfold trimEnd. rewrite last_rev. apply trimStart_head_clean.
Qed.

(** Stripping the end keeps a clean head. *)
Lemma trimEnd_head_clean s c :
  (∀ x, head s = Some x → isWhiteSpace x = false) →
  head (trimEnd s) = Some c → isWhiteSpace c = false.
Proof.
  intros H Hc. destruct (trimEnd_split s) as (post & E & Hp).
  destruct (trimEnd s) as [|x r]; [done |]. injection Hc as ->.
  apply H. by rewrite E.
Qed.

Lemma trim_head_clean s c :
  head (trim s) = Some c → isWhiteSpace c = false.
Proof.
  unfold trim. apply trimEnd_head_clean. intros x.
  apply trimStart_head_clean.
Qed.

Lemma trim_idempotent s : trim (trim s) = trim s.
Proof.
  unfold trim at 1. rewrite (trimStart_id (trim s)).
  - apply trimEnd_id. intros c. unfold trim. apply trimEnd_last_clean.
  - intros c. apply trim_head_clean.
Qed.

End StringFacts.

(** X17.  [trim] removes white space at both ends and nothing else: the
    string is the trimmed string between a prefix and a suffix of white
    space; the trimmed string neither starts nor ends with white space;
    trimming again changes nothing. *)
Theorem trim_strips_both_ends (s : jsstring) :
  (∃ pre post,
     s = pre ++ trim s ++ post
     ∧ forallb isWhiteSpace pre = true ∧ forallb isWhiteSpace post = true)
  ∧ (∀ c, head (trim s) = Some c → isWhiteSpace c = false)
  ∧ (∀ c, last (trim s) = Some c → isWhiteSpace c = false)
  ∧ trim (trim s) = trim s.
Proof.
  split_and!.
  - destruct (StringFacts.trimStart_split s) as (pre & E1 & H1).
    destruct (StringFacts.trimEnd_split (trimStart s)) as (post & E2 & H2).
    exists pre, post. split; [| done]. unfold trim. by rewrite <- E2.
  - apply StringFacts.trim_head_clean.
  - intros c. unfold trim. apply StringFacts.trimEnd_last_clean.
  - apply StringFacts.trim_idempotent.
Qed.

(** X18.  The application identifier is a single path segment: after the
    two replacements every code unit is a letter, a digit, an underscore,
    a dot or a hyphen, so no slash is left; the length is kept, slashes
    have become underscores and the allowed units are untouched; an
    identifier that is already clean, such as the default one, comes out
    unchanged. *)
Theorem appId_is_one_segment (app_id : option jsstring) :
  let r := FirebaseContext.appId app_id in
  Forall (λ c, FirebaseContext.allowed c = true) r
  ∧ (47%N ∉ r)
  ∧ (∀ raw, app_id = Some raw →
       length r = length raw
       ∧ (∀ i, raw !! i = Some 47%N → r !! i = Some 95%N)
       ∧ (∀ i c, raw !! i = Some c → FirebaseContext.allowed c = true →
                 r !! i = Some c))
  ∧ FirebaseContext.appId (Some r) = r
  ∧ FirebaseContext.appId None = units "default-taskflow-app".
Proof.
  intros r.
  assert (A : ∀ x, Forall (λ c, FirebaseContext.allowed c = true)
                     (FirebaseContext.replaceOthers x)).
  { intros x. unfold FirebaseContext.replaceOthers. apply Forall_fmap.
    apply Forall_forall. intros c _. simpl.
    by destruct (FirebaseContext.allowed c) eqn:E. }
  assert (I : ∀ x, Forall (λ c, FirebaseContext.allowed c = true) x →
                   FirebaseContext.replaceOthers
                     (FirebaseContext.replaceSlashes x) = x).
  { intros x Hx. unfold FirebaseContext.replaceOthers,
      FirebaseContext.replaceSlashes.
    rewrite <- list_fmap_compose. rewrite <- (list_fmap_id x) at 2.
    apply Forall_fmap_ext_1. eapply Forall_impl; [exact Hx |].
    intros c Hc. simpl.
    destruct (N.eqb_spec c 47) as [->|_]; [discriminate Hc |].
    by rewrite Hc. }
  split; [apply A |]. split; [| split; [| split]].
  - intros Hin. pose proof (A (FirebaseContext.replaceSlashes
      (default (units "default-taskflow-app") app_id))) as F.
    rewrite Forall_forall in F. specialize (F _ Hin). discriminate F.
  - intros raw ->. unfold r.
    change (FirebaseContext.appId (Some raw))
      with (FirebaseContext.replaceOthers
              (FirebaseContext.replaceSlashes raw)).
    unfold FirebaseContext.replaceOthers, FirebaseContext.replaceSlashes,
      jsstring in *.
    split; [by rewrite !length_fmap |]. split.
    + intros i Hi. rewrite !list_lookup_fmap, Hi. reflexivity.
    + intros i c Hi Hc. rewrite !list_lookup_fmap, Hi. simpl.
      destruct (N.eqb_spec c 47) as [->|_]; [discriminate Hc |].
      by rewrite Hc.
  - apply I, A.
  - vm_compute. reflexivity.
Qed.

(** X19.  The name in the greeting.  From a mail address it is what
    precedes the first at-sign, so it contains none (and is empty when
    the address starts with one); without a mail address a user
    identifier of more than 8 units gives [User_] and its first four
    units, nine units in all; anything else gives [Guest]. *)
Theorem userName_cases (email uid : option jsstring) :
  (∀ e, email = Some e → e ≠ [] →
        App.userName email uid = App.beforeFirst 64 e
        ∧ (64%N ∉ App.userName email uid)
        ∧ ∃ rest, e = App.userName email uid ++ rest
                  ∧ (rest = [] ∨ head rest = Some 64%N))
  ∧ (email = None ∨ email = Some [] →
     ∀ u, uid = Some u → (8 < length u)%nat →
          App.userName email uid = units "User_" ++ take 4 u
          ∧ length (App.userName email uid) = 9%nat)
  ∧ (email = None ∨ email = Some [] →
     uid = None ∨ (∃ u, uid = Some u ∧ (length u ≤ 8)%nat) →
     App.userName email uid = units "Guest").
Proof.
  split_and!.
  - intros e -> He.
    assert (E : App.userName (Some e) uid = App.beforeFirst 64 e)
      by (by destruct e).
    rewrite E. split; [done |]. clear E He. split.
    + induction e as [|c r IH]; simpl; [by intros ?%elem_of_nil |].
      destruct (N.eqb_spec c 64) as [->|Hc]; [by intros ?%elem_of_nil |].
      intros [?|?]%elem_of_cons; [congruence | done].
    + induction e as [|c r (rest & E & Hr)]; simpl;
        [exists []; split; [done | by left] |].
      destruct (N.eqb_spec c 64) as [->|Hc].
      * exists (64%N :: r). split; [done | by right].
      * exists rest. split; [| done]. simpl. by f_equal.
  - intros He u -> Hu.
    assert (E : App.userName email (Some u) = units "User_" ++ take 4 u).
    { unfold App.userName. destruct He as [->| ->];
        by rewrite bool_decide_eq_true_2. }
    rewrite E. split; [done |]. rewrite length_app, length_take.
    change (length (units "User_")) with 5%nat. lia.
  - intros He Hu. unfold App.userName.
    destruct He as [->| ->], Hu as [->|(u & -> & Hu)]; try done;
      by rewrite bool_decide_eq_false_2 by lia.
Qed.

(** ** The page and the store *)

Module PageFacts.

Ltac handlers :=
  unfold App.handleStartFocus, App.handleUpdateTaskStatus,
    App.handleDeleteTask, App.handleAddTask, Firestore.updateDoc,
    Firestore.deleteDoc, Firestore.addDoc, App.onSnapshot,
    TaskForm.handleSubmit;
  repeat (simpl;
          match goal with
          | |- context [decide ?P] => destruct (decide P)
          | |- context [if ?b then _ else _] => destruct b eqn:?
          | |- context [match ?x with Some _ => _ | None => _ end] =>
              destruct x eqn:?
          end).

Lemma ready_handle e s : App.ready (app (handle e s)) = App.ready (app s).
Proof. destruct e; simpl; try done; by handlers. Qed.

Lemma userId_handle e s :
  App.userId (app (handle e s)) = App.userId (app s).
Proof. destruct e; simpl; try done; by handlers. Qed.

Lemma app_dispatch e s : app (dispatch e s) = app (handle e s).
Proof. done. Qed.

Lemma form_dispatch e s : form (dispatch e s) = form (handle e s).
Proof. done. Qed.

(** The focus time of the form is always one of the options. *)
Lemma reachable_form_option s :
  reachable s → TaskForm.focusTime (form s) ∈ TaskForm.focusOptions.
Proof.
  assert (H30 : (30 : Z) ∈ TaskForm.focusOptions)
    by (unfold TaskForm.focusOptions; set_solver).
  induction 1 as [uid rdy ds H | e s _ IH]; [done |].
  rewrite form_dispatch. destruct e; simpl; try done.
  - unfold TaskForm.selectFocusTime.
    destruct (TaskForm.focusOptions !! n) as [v|] eqn:E; [| done].
    simpl. by eapply list_elem_of_lookup_2.
  - by destruct (isEmpty (trim (TaskForm.title (form s)))).
  - destruct (findCard k (app s)) as [t|]; [| done].
    by destruct (TaskCard.nextStatus (status t)).
  - destruct (findCard k (app s)) as [t|]; [| done].
    by destruct (TaskCard.showsFocus t).
  - by destruct (findCard k (app s)).
Qed.

(** What an event adds to the request log. *)
Lemma calls_handle e s :
  TaskForm.focusTime (form s) ∈ TaskForm.focusOptions →
  ∃ l, Firestore.calls (App.store (app (handle e s)))
       = Firestore.calls (App.store (app s)) ++ l
       ∧ Forall (wellFormedAdd (App.userId (app s))) l.
Proof.
  intros Hf.
  assert (Z0 : ∃ l, Firestore.calls (App.store (app s))
                    = Firestore.calls (App.store (app s)) ++ l
                    ∧ Forall (wellFormedAdd (App.userId (app s))) l)
    by (exists []; by rewrite app_nil_r).
  assert (U : ∀ cft k n b,
    ∃ l, Firestore.calls
           (App.store (App.handleUpdateTaskStatus cft k n b (app s)))
         = Firestore.calls (App.store (app s)) ++ l
         ∧ Forall (wellFormedAdd (App.userId (app s))) l).
  { intros cft k n b. handlers; try done;
      by (eexists; split; [reflexivity | by repeat constructor]). }
  destruct e; simpl; try done.
  - destruct (isEmpty (trim (TaskForm.title (form s)))) eqn:Et; [done |].
    simpl. unfold App.handleAddTask. simpl.
    destruct (App.ready (app s)) eqn:R; simpl; [| done].
    assert (W : wellFormedAdd (App.userId (app s))
      (Firestore.AddDoc
         {| d_title := trim (TaskForm.title (form s));
            d_focusTime := TaskForm.focusTime (form s);
            d_energyLevel := TaskForm.energyLevel (form s);
            d_type := Some (TaskForm.taskType (form s));
            d_status := todo; d_createdAt := Some now;
            d_userId := App.userId (app s) |})).
    { simpl. split_and!; try done.
      - intros E. by rewrite E in Et.
      - apply StringFacts.trim_idempotent. }
    destruct ok; simpl; unfold App.onSnapshot; simpl; rewrite ?R; simpl;
      (eexists; split; [reflexivity | by apply Forall_singleton]).
  - destruct (findCard k (app s)) as [t|]; [| done].
    destruct (TaskCard.nextStatus (status t)); [| done]. apply U.
  - destruct (findCard k (app s)) as [t|]; [| done].
    destruct (TaskCard.showsFocus t); [| done]. simpl.
    unfold App.handleStartFocus. case_decide; [| done].
    destruct (U (App.currentFocusTask (app s)) (id t) in_progress ok)
      as (l & E & Hl).
    exists l. split; [| done]. rewrite <- E.
    unfold App.handleUpdateTaskStatus, Firestore.updateDoc, App.onSnapshot.
    simpl. destruct (App.ready (app s)); simpl; [| done].
    destruct (Firestore.docs (App.store (app s)) !! id t); simpl; [| done].
    destruct ok; simpl; [| done].
    by destruct (App.ready (app s)).
  - destruct (findCard k (app s)) as [t|]; [| done]. simpl.
    handlers; try done;
      by (eexists; split; [reflexivity | by repeat constructor]).
  - unfold App.onSnapshot. by destruct (App.ready (app s)).
Qed.

Lemma reachable_calls s :
  reachable s →
  Forall (wellFormedAdd (App.userId (app s)))
    (Firestore.calls (App.store (app s))).
Proof.
  induction 1 as [uid rdy ds H | e s Hr IH]; [done |].
  rewrite app_dispatch, userId_handle.
  destruct (calls_handle e s (reachable_form_option s Hr)) as (l & -> & Hl).
  apply Forall_app. by split.
Qed.

(** Without a collection reference: no request, no focus. *)
Lemma reachable_unready_quiet s :
  reachable s → App.ready (app s) = false →
  Firestore.calls (App.store (app s)) = []
  ∧ App.currentFocusTask (app s) = None.
Proof.
  induction 1 as [uid rdy ds H | e s Hr IH]; [done |].
  rewrite app_dispatch, ready_handle. intros R.
  destruct (IH R) as [Hc Hf].
  pose proof (SystemFacts.reachable_unready s Hr R) as Ht.
  assert (Hn : ∀ k, findCard k (app s) = None).
  { intros k. unfold findCard, App.cards, App.filteredTasks.
    by rewrite Ht. }
  destruct e; simpl; rewrite ?Hn; try done.
  - destruct (isEmpty (trim (TaskForm.title (form s)))); [done |].
    simpl. unfold App.handleAddTask. simpl. by rewrite R.
  - unfold App.onSnapshot. by rewrite R.
Qed.

(** The Mark button of a card: what its card shows afterwards. *)
Lemma click_next_status s k t :
  reachable s → findCard k (app s) = Some t →
  ∃ t', findCard k (app (dispatch (ClickNextStatus k true) s)) = Some t'
        ∧ TaskCard.nextStatus (status t) = Some (status t')
        ∧ id t' = id t ∧ title t' = title t ∧ focusTime t' = focusTime t
        ∧ energyLevel t' = energyLevel t ∧ type t' = type t
        ∧ createdAt t' = createdAt t ∧ userId t' = userId t.
Proof.
  intros H Hc. set (s' := dispatch (ClickNextStatus k true) s).
  assert (H' : reachable s') by (by constructor).
  pose proof (SystemFacts.card_ready s _ _ H Hc) as R.
  destruct (SystemFacts.findCard_Some _ _ _ Hc) as [Hu Ek].
  pose proof (SystemFacts.findCard_card _ _ _ Hc) as Hcard.
  apply BoardFacts.elem_of_cards_iff in Hcard as [_ Hty].
  destruct (AppInvariant.ok_mirror _
              (sound_app s (SystemFacts.reachable_sound s H)) t Hu)
    as (d & Hl & Et).
  rewrite Ek in Hl, Et.
  assert (∃ n, TaskCard.nextStatus (status t) = Some n) as [n Hn]
    by (destruct (status t); by eexists).
  set (t' := fromDoc k (Firestore.withStatus n d)).
  assert (Ea : app s'
    = App.handleUpdateTaskStatus (App.currentFocusTask (app s)) k n true
        (app s)).
  { unfold s', dispatch, render. simpl. by rewrite Hc, Hn, Ek. }
  assert (Ht' : t' ∈ App.tasks (app s')
                ∧ App.taskTypeFilter (app s') = App.taskTypeFilter (app s)).
  { rewrite Ea. unfold App.handleUpdateTaskStatus, Firestore.updateDoc.
    rewrite R, Hl. simpl. unfold App.onSnapshot. simpl. rewrite R.
    assert (M : t' ∈ App.sortByCreatedAt
      (Firestore.snapshot
         {| Firestore.docs :=
              <[k:=Firestore.withStatus n d]>
                (Firestore.docs (App.store (app s)));
            Firestore.calls :=
              Firestore.calls (App.store (app s))
                ++ [Firestore.UpdateDoc k n] |})).
    { rewrite AppFacts.sortByCreatedAt_perm.
      apply AppFacts.elem_of_snapshot. exists (Firestore.withStatus n d).
      simpl. by rewrite lookup_insert_eq. }
    by destruct (bool_decide (n = complete)
                 && App.focusIs (App.currentFocusTask (app s)) k). }
  destruct Ht' as [Ht' Hf].
  exists t'. split.
  - apply BoardFacts.findCard_unique; [| | done].
    + apply (AppInvariant.ok_ids _
               (sound_app s' (SystemFacts.reachable_sound s' H'))).
    + apply BoardFacts.elem_of_cards_iff. split; [done |].
      rewrite Hf, <- Hty, Et. done.
  - split; [by rewrite Hn |]. rewrite Et. by simpl.
Qed.

End PageFacts.

(** X20.  The status button of a card.  Once the store has accepted the
    request, the card shows the next status of the cycle todo,
    in-progress, complete, todo, which is never the status it had, and
    nothing else about the task has changed; three accepted presses bring
    the card back to what it was. *)
Theorem status_button_cycles (s : System) (k : DocId) (t : Task) :
  reachable s →
  findCard k (app s) = Some t →
  (∃ t1, findCard k (app (dispatch (ClickNextStatus k true) s)) = Some t1
         ∧ TaskCard.nextStatus (status t) = Some (status t1)
         ∧ status t1 ≠ status t
         ∧ id t1 = id t ∧ title t1 = title t ∧ focusTime t1 = focusTime t
         ∧ energyLevel t1 = energyLevel t ∧ type t1 = type t
         ∧ createdAt t1 = createdAt t ∧ userId t1 = userId t)
  ∧ findCard k
      (app (run [ClickNextStatus k true; ClickNextStatus k true;
                 ClickNextStatus k true] s))
    = Some t.
Proof.
  intros H Hc.
  destruct (PageFacts.click_next_status s k t H Hc)
    as (t1 & Hc1 & N1 & F1).
  split.
  - exists t1. split; [done |]. split; [done |]. split; [| done].
    destruct (status t), (status t1); done.
  - set (s1 := dispatch (ClickNextStatus k true) s) in *.
    assert (H1 : reachable s1) by (by constructor).
    destruct (PageFacts.click_next_status s1 k t1 H1 Hc1)
      as (t2 & Hc2 & N2 & F2).
    set (s2 := dispatch (ClickNextStatus k true) s1) in *.
    assert (H2 : reachable s2) by (by constructor).
    destruct (PageFacts.click_next_status s2 k t2 H2 Hc2)
      as (t3 & Hc3 & N3 & F3).
    change (run [ClickNextStatus k true; ClickNextStatus k true;
                 ClickNextStatus k true] s)
      with (dispatch (ClickNextStatus k true) s2).
    rewrite Hc3. f_equal.
    destruct t, t1, t2, t3. simpl in *.
    destruct F1 as (? & ? & ? & ? & ? & ? & ?).
    destruct F2 as (? & ? & ? & ? & ? & ? & ?).
    destruct F3 as (? & ? & ? & ? & ? & ? & ?).
    subst. f_equal.
    repeat match goal with
           | x : TaskStatus |- _ => destruct x
           end; simpl in *; congruence.
Qed.

Lemma status_button_cycles_witness :
  reachable Session.twoTasks
  ∧ findCard 1%nat (app Session.twoTasks) = Some Session.mail
  ∧ findCard 1%nat
      (app (run [ClickNextStatus 1%nat true; ClickNextStatus 1%nat true;
                 ClickNextStatus 1%nat true] Session.twoTasks))
    = Some Session.mail.
Proof.
  assert (Hc : findCard 1%nat (app Session.twoTasks) = Some Session.mail)
    by (vm_compute; reflexivity).
  split; [apply SessionFacts.reachable_twoTasks |]. split; [exact Hc |].
  exact (proj2 (status_button_cycles Session.twoTasks 1%nat Session.mail
                  SessionFacts.reachable_twoTasks Hc)).
Defined.

(** X21.  Without a collection reference (no configuration, or no user
    yet) the page is inert: in every reachable state no request has been
    sent, no task is listed, none is focused and the timer is idle at 25
    minutes; an attempt to add a task writes the error "Firestore not
    ready", leaves the store alone and lowers the submitting flag. *)
Theorem unready_page_is_inert (s : System) :
  reachable s →
  App.ready (app s) = false →
  Firestore.calls (App.store (app s)) = []
  ∧ App.tasks (app s) = []
  ∧ App.currentFocusTask (app s) = None
  ∧ PomodoroTimer.status (timer s) = PomodoroTimer.idle
  ∧ PomodoroTimer.remaining (timer s) = 1500
  ∧ (∀ nt now ok,
       let a' := App.handleAddTask nt now ok (app s) in
       App.store a' = App.store (app s)
       ∧ App.errors a' = App.errors (app s) ++ [App.FirestoreNotReady]
       ∧ App.isSubmitting a' = false).
Proof.
  intros H R.
  destruct (PageFacts.reachable_unready_quiet s H R) as [Hc Hf].
  destruct (TimerPageFacts.rendered_no_focus s
              (SystemFacts.reachable_rendered s H) Hf) as [Hs Hr].
  split_and!; try done.
  - by apply SystemFacts.reachable_unready.
  - intros nt now ok a'. unfold a', App.handleAddTask. simpl.
    by rewrite R.
Qed.

Lemma unready_page_is_inert_witness :
  let s :=
    run [ChangeTitle Session.writeReport; Submit 0 true; ClickStart]
      (initial Session.user false ∅) in
  reachable s
  ∧ App.ready (app s) = false
  ∧ App.errors (app s) = [App.FirestoreNotReady]
  ∧ Firestore.calls (App.store (app s)) = [].
Proof.
  intros s.
  assert (H : reachable s).
  { apply SystemFacts.reachable_run. constructor. apply map_Forall_empty. }
  assert (R : App.ready (app s) = false) by (vm_compute; reflexivity).
  split; [exact H |]. split; [exact R |].
  split; [vm_compute; reflexivity |].
  exact (proj1 (unready_page_is_inert s H R)).
Defined.

(** X22.  Every [addDoc] request the page has ever sent carries a [todo]
    task with one of the six focus times on offer, a title that is trimmed
    and not empty, the identifier of the user, a type and a creation
    time. *)
Theorem add_requests_well_formed (s : System) :
  reachable s →
  ∀ d, Firestore.AddDoc d ∈ Firestore.calls (App.store (app s)) →
       d_status d = todo
       ∧ d_focusTime d ∈ [15; 30; 45; 60; 90; 120]
       ∧ d_title d ≠ []
       ∧ trim (d_title d) = d_title d
       ∧ d_userId d = App.userId (app s)
       ∧ is_Some (d_type d)
       ∧ is_Some (d_createdAt d).
Proof.
  intros H d Hd. pose proof (PageFacts.reachable_calls s H) as F.
  rewrite Forall_forall in F. apply (F _ Hd).
Qed.

Lemma add_requests_well_formed_witness :
  reachable Session.twoTasks
  ∧ length (Firestore.calls (App.store (app Session.twoTasks))) = 3%nat
  ∧ (∀ d, Firestore.AddDoc d
            ∈ Firestore.calls (App.store (app Session.twoTasks)) →
          d_status d = todo).
Proof.
  split; [apply SessionFacts.reachable_twoTasks |].
  split; [vm_compute; reflexivity |]. intros d Hd.
  exact (proj1 (add_requests_well_formed Session.twoTasks
                  SessionFacts.reachable_twoTasks d Hd)).
Defined.

(** X23.  A title with any unit that is not white space is submitted:
    with the collection available, [handleSubmit] sends exactly one
    [addDoc] request, for the trimmed title and the values of the form,
    whatever the store then answers, and resets the title, the focus time
    (30) and the energy level (Medium) of the form, but not the task
    type. *)
Theorem nonblank_title_is_submitted (f : TaskForm.State) (a : App.State)
    (now : Z) (ok : bool) :
  App.ready a = true →
  forallb isWhiteSpace (TaskForm.title f) = false →
  let r := TaskForm.handleSubmit now ok (f, a) in
  trim (TaskForm.title f) ≠ []
  ∧ Firestore.calls (App.store r.2)
    = Firestore.calls (App.store a)
        ++ [Firestore.AddDoc
              {| d_title := trim (TaskForm.title f);
                 d_focusTime := TaskForm.focusTime f;
                 d_energyLevel := TaskForm.energyLevel f;
                 d_type := Some (TaskForm.taskType f);
                 d_status := todo; d_createdAt := Some now;
                 d_userId := App.userId a |}]
  ∧ r.1 = {| TaskForm.title := []; TaskForm.focusTime := 30;
             TaskForm.energyLevel := Medium;
             TaskForm.taskType := TaskForm.taskType f |}
  ∧ App.isSubmitting r.2 = false.
Proof.
  intros R Hb r.
  assert (Ht : trim (TaskForm.title f) ≠ []).
  { intros E. apply trim_nil in E. congruence. }
  split; [done |]. unfold r, TaskForm.handleSubmit.
  destruct (trim (TaskForm.title f)) as [|c x] eqn:E; [done |]. simpl.
  unfold App.handleAddTask. simpl. rewrite R. simpl.
  destruct ok; simpl; [| done]. unfold App.onSnapshot. simpl.
  by rewrite R.
Qed.

Lemma nonblank_title_is_submitted_witness :
  let f := TaskForm.setTitle (units "  Read mail ") TaskForm.init in
  let a := app Session.created in
  App.ready a = true
  ∧ forallb isWhiteSpace (TaskForm.title f) = false
  ∧ trim (TaskForm.title f) = Session.readMail
  ∧ length (Firestore.calls (App.store (TaskForm.handleSubmit 60 false (f, a)).2))
    = 2%nat.
Proof.
  intros f a.
  assert (R : App.ready a = true) by (vm_compute; reflexivity).
  assert (B : forallb isWhiteSpace (TaskForm.title f) = false)
    by (vm_compute; reflexivity).
  destruct (nonblank_title_is_submitted f a 60 false R B) as (_ & H & _).
  split; [exact R |]. split; [exact B |].
  split; [vm_compute; reflexivity |].
  rewrite H. vm_compute. reflexivity.
Defined.

(** X24.  Deleting another task, or moving another task along the status
    cycle, does not disturb the focused task: whatever the store answers,
    the focus reference and the whole state of the timer (status,
    remaining time, interval, completions) are as before. *)
Theorem other_cards_leave_timer_alone (s : System) (t u : Task)
    (k : DocId) (ok : bool) :
  reachable s →
  App.currentFocusTask (app s) = Some t →
  findCard k (app s) = Some u →
  k ≠ id t →
  (App.currentFocusTask (app (dispatch (ClickDelete k ok) s)) = Some t
   ∧ timer (dispatch (ClickDelete k ok) s) = timer s)
  ∧ (App.currentFocusTask (app (dispatch (ClickNextStatus k ok) s)) = Some t
     ∧ timer (dispatch (ClickNextStatus k ok) s) = timer s).
Proof.
  intros H Hf Hc Hk.
  destruct (SystemFacts.findCard_Some _ _ _ Hc) as [_ Ek].
  pose proof (SystemFacts.reachable_rendered s H) as Hr.
  apply (f_equal timer) in Hr. unfold render in Hr. simpl in Hr.
  rewrite Hf in Hr.
  assert (F : bool_decide (id t = id u) = false).
  { apply bool_decide_eq_false. congruence. }
  assert (D : App.currentFocusTask
                (App.handleDeleteTask (Some t) (id u) ok (app s)) = Some t).
  { unfold App.handleDeleteTask, Firestore.deleteDoc, App.onSnapshot.
    destruct (App.ready (app s)) eqn:R; simpl; [| done].
    destruct ok; simpl; [| done]. by rewrite R, F. }
  assert (U : ∀ n, App.currentFocusTask
                (App.handleUpdateTaskStatus (Some t) (id u) n ok (app s))
              = Some t).
  { intros n. unfold App.handleUpdateTaskStatus, Firestore.updateDoc,
      App.onSnapshot.
    destruct (App.ready (app s)) eqn:R; simpl; [| done].
    destruct (Firestore.docs (App.store (app s)) !! id u); simpl; [| done].
    destruct ok; simpl; [| done]. rewrite R, F.
    by rewrite andb_false_r. }
  split.
  - unfold dispatch, render. simpl. rewrite Hc, Hf. simpl. by rewrite D.
  - unfold dispatch, render. simpl. rewrite Hc, Hf.
    destruct (TaskCard.nextStatus (status u)) as [n|]; simpl.
    + by rewrite U.
    + by rewrite Hf.
Qed.

Lemma other_cards_leave_timer_alone_witness :
  let s := run [ClickStart; Tick 1%nat; Tick 1%nat] Session.twoTasks in
  reachable s
  ∧ App.currentFocusTask (app s) = Some Session.report
  ∧ PomodoroTimer.remaining (timer s) = 2698
  ∧ timer (dispatch (ClickDelete 1%nat true) s) = timer s.
Proof.
  intros s.
  assert (H : reachable s)
    by apply SystemFacts.reachable_run, SessionFacts.reachable_twoTasks.
  assert (Hf : App.currentFocusTask (app s) = Some Session.report)
    by (vm_compute; reflexivity).
  assert (Hc : findCard 1%nat (app s) = Some Session.mail)
    by (vm_compute; reflexivity).
  assert (Hk : 1%nat ≠ id Session.report) by (vm_compute; lia).
  destruct (other_cards_leave_timer_alone s Session.report Session.mail
              1%nat true H Hf Hc Hk) as [[_ H1] _].
  split; [exact H |]. split; [exact Hf |].
  split; [vm_compute; reflexivity | exact H1].
Defined.
